(** * pdf_extractor: a shallow embedding of the extraction logic

    The development follows [src/pdf_extractor.py]: metadata recognition
    ([extract_metadata]), the policy-year line loop ([extract_claims_data]),
    the note classifier ([_process_notes]), the benefits grid normaliser
    ([extract_benefits_data]) and [validate_dataframes].

    Text.  A Python [str] is modelled as a list of characters of code point
    below 256 (Rocq's [ascii]); the classification functions of Python
    ([str.isspace], the [re] categories, case mapping) are written out on that
    range.  Code points from 256 on are outside the model.

    Numbers.  [int] is [Z].  A [float] is kept as the exact rational its
    decimal literal denotes (or an infinity, or NaN); rounding to binary64 is
    not modelled.

    Frames.  A pandas frame is its list of column labels and its rows, each
    under its index label.  The page text and the grid come from pdfplumber
    and camelot and are inputs here.  Log messages are left out, except in
    [validate_dataframes], where they are the diagnostics. *)

From Stdlib Require Import List String Ascii Bool Arith NArith ZArith QArith Lia Sorted FinFun.
Import ListNotations.

Set Implicit Arguments.

Local Open Scope nat_scope.
Local Open Scope list_scope.

(** ** Characters and strings *)

Definition str := list ascii.

(** [T "abc"] is the text of a literal. *)
Definition T (s : string) : str := list_ascii_of_string s.

Definition code (c : ascii) : N := N_of_ascii c.

Definition in_range (lo hi : N) (c : ascii) : bool :=
  ((lo <=? code c) && (code c <=? hi))%N.

Definition is_code (n : N) (c : ascii) : bool := (code c =? n)%N.

Definition str_eqb (a b : str) : bool :=
  if list_eq_dec ascii_dec a b then true else false.

(** [str.isspace] on one character; also the [\s] category of [re] and the
    separator set of [str.split()] and [str.strip()]. *)
Definition isspace (c : ascii) : bool :=
  in_range 9 13 c || in_range 28 32 c || is_code 133 c || is_code 160 c.

(** The [\d] category of [re] for [str] patterns (Unicode decimal digits). *)
Definition isdecimal (c : ascii) : bool := in_range 48 57 c.

(** [str.isalnum] on one character. *)
Definition isalnum (c : ascii) : bool :=
  in_range 48 57 c || in_range 65 90 c || in_range 97 122 c
  || is_code 170 c || is_code 178 c || is_code 179 c || is_code 181 c
  || is_code 185 c || is_code 186 c || in_range 188 190 c
  || in_range 192 214 c || in_range 216 246 c || in_range 248 255 c.

(** The [\w] category of [re]. *)
Definition isword (c : ascii) : bool := isalnum c || is_code 95 c.

(** Simple case mappings.  The two lower-case letters of the range whose
    upper-case form lies beyond it (181 and 255) are left in place. *)
Definition lower_char (c : ascii) : ascii :=
  if in_range 65 90 c || in_range 192 214 c || in_range 216 222 c
  then ascii_of_N (code c + 32) else c.

Definition upper_char (c : ascii) : ascii :=
  if in_range 97 122 c || in_range 224 246 c || in_range 248 254 c
  then ascii_of_N (code c - 32) else c.

(** [s.lower()] *)
Definition lower (s : str) : str := map lower_char s.

(** [s.lstrip()], [s.rstrip()], [s.strip()] *)
Fixpoint lstrip (s : str) : str :=
  match s with
  | c :: s' => if isspace c then lstrip s' else s
  | [] => []
  end.

Definition rstrip (s : str) : str := rev (lstrip (rev s)).

Definition strip (s : str) : str := rstrip (lstrip s).

(** [s.split()]: the maximal runs of non-whitespace characters.  [cur] is the
    run being read, in reverse. *)
Fixpoint split_loop (cur : str) (s : str) : list str :=
  match s with
  | [] => match cur with [] => [] | _ :: _ => [rev cur] end
  | c :: s' =>
      if isspace c
      then match cur with
           | [] => split_loop [] s'
           | _ :: _ => rev cur :: split_loop [] s'
           end
      else split_loop (c :: cur) s'
  end.

Definition str_split (s : str) : list str := split_loop [] s.

(** [s.split(sep)] for a one-character separator: always at least one field. *)
Fixpoint split_on_loop (sep : ascii) (cur : str) (s : str) : list str :=
  match s with
  | [] => [rev cur]
  | c :: s' =>
      if Ascii.eqb c sep
      then rev cur :: split_on_loop sep [] s'
      else split_on_loop sep (c :: cur) s'
  end.

Definition split_on (sep : ascii) (s : str) : list str := split_on_loop sep [] s.

(** [s.replace(",", "")] *)
Definition remove_commas (s : str) : str :=
  filter (fun c => negb (is_code 44 c)) s.

(** [sub in s] *)
Fixpoint starts_with (p s : str) : bool :=
  match p, s with
  | [], _ => true
  | a :: p', b :: s' => Ascii.eqb a b && starts_with p' s'
  | _ :: _, [] => false
  end.

Fixpoint contains (sub s : str) : bool :=
  starts_with sub s ||
  match s with
  | [] => false
  | _ :: s' => contains sub s'
  end.

(** [s[a:b]] for [a <= b] *)
Definition slice (s : str) (a b : nat) : str := firstn (b - a) (skipn a s).

(** ** [int(s)] and [float(s)] *)

(** Before parsing, CPython maps the white space from code point 127 on to a
    blank and then skips the C-locale white space at both ends; the
    separators 28..31 are therefore not skipped. *)
Definition num_space (c : ascii) : bool :=
  in_range 9 13 c || is_code 32 c || is_code 133 c || is_code 160 c.

Fixpoint num_lstrip (s : str) : str :=
  match s with
  | c :: s' => if num_space c then num_lstrip s' else s
  | [] => []
  end.

Definition num_strip (s : str) : str := rev (num_lstrip (rev (num_lstrip s))).

Definition digit_val (c : ascii) : Z := Z.of_N (code c) - 48.

(** Value of a digit string, most significant digit first. *)
Definition digits_value (ds : str) : Z :=
  fold_left (fun acc c => 10 * acc + digit_val c)%Z ds 0%Z.

(** Underscores may only stand between two digits; [prev] is the character
    before [s] (none at the start).  The result is [s] without them. *)
Fixpoint drop_underscores (prev : option ascii) (s : str) : option str :=
  match s with
  | [] =>
      match prev with
      | Some p => if is_code 95 p then None else Some []
      | None => Some []
      end
  | c :: s' =>
      if is_code 95 c
      then match prev with
           | Some p => if isdecimal p then drop_underscores (Some c) s' else None
           | None => None
           end
      else
        let after_us := match prev with Some p => is_code 95 p | None => false end in
        if after_us && negb (isdecimal c) then None
        else option_map (cons c) (drop_underscores (Some c) s')
  end.

Definition split_sign (s : str) : bool * str :=
  match s with
  | c :: s' =>
      if is_code 45 c then (true, s')
      else if is_code 43 c then (false, s')
      else (false, s)
  | [] => (false, [])
  end.

(** [sys.get_int_max_str_digits()] at its default. *)
Definition int_max_str_digits : nat := 4300.

(** [int(s)]; [None] stands for [ValueError]. *)
Definition py_int (s : str) : option Z :=
  let '(neg, body) := split_sign (num_strip s) in
  match body with
  | [] => None
  | c :: _ =>
      if isdecimal c then
        match drop_underscores None body with
        | Some ds =>
            if forallb isdecimal ds && (List.length ds <=? int_max_str_digits)
            then Some (if neg then - digits_value ds else digits_value ds)%Z
            else None
        | None => None
        end
      else None
  end.

Inductive pyfloat : Type :=
| FNan
| FInf (negative : bool)
| FFin (q : Q).

(** Longest prefix of decimal digits, and what follows. *)
Fixpoint span_digits (s : str) : str * str :=
  match s with
  | c :: s' =>
      if isdecimal c
      then let '(ds, r) := span_digits s' in (c :: ds, r)
      else ([], s)
  | [] => ([], [])
  end.

(** The exponent part: empty, or [e]/[E], an optional sign and digits. *)
Definition parse_exponent (s : str) : option Z :=
  match s with
  | [] => Some 0%Z
  | c :: s' =>
      if is_code 101 c || is_code 69 c then
        let '(neg, ds) := split_sign s' in
        match ds with
        | [] => None
        | _ :: _ =>
            if forallb isdecimal ds
            then Some (if neg then - digits_value ds else digits_value ds)%Z
            else None
        end
      else None
  end.

Definition pow10 (e : Z) : Q :=
  if (0 <=? e)%Z then inject_Z (10 ^ e) else / inject_Z (10 ^ (- e)).

(** An unsigned decimal literal: digits, an optional point and digits (one
    digit at least on one side of the point), an optional exponent. *)
Definition parse_decimal (s : str) : option Q :=
  let '(ip, r1) := span_digits s in
  let '(fp, r2) :=
    match r1 with
    | c :: r => if is_code 46 c then span_digits r else ([], r1)
    | [] => ([], [])
    end in
  match ip ++ fp with
  | [] => None
  | _ :: _ =>
      match parse_exponent r2 with
      | Some e =>
          Some (Qred (inject_Z (digits_value (ip ++ fp))
                      * pow10 (e - Z.of_nat (List.length fp))))
      | None => None
      end
  end.

(** [float(s)]; [None] stands for [ValueError]. *)
Definition py_float (s : str) : option pyfloat :=
  match drop_underscores None (num_strip s) with
  | None => None
  | Some s1 =>
      let '(neg, body) := split_sign s1 in
      let lb := lower body in
      if str_eqb lb (T "inf") || str_eqb lb (T "infinity") then Some (FInf neg)
      else if str_eqb lb (T "nan") then Some FNan
      else
        match parse_decimal body with
        | Some q => Some (FFin (if neg then Qred (- q) else q))
        | None => None
        end
  end.

(** ** The fragment of [re] the program uses

    Every pattern of the source is a sequence of one-character sets, each
    with a greedy quantifier, around at most one capture group. *)

Inductive citem : Type :=
| CLit (a : ascii)
| CRange (lo hi : ascii)
| CDigit
| CSpace
| CWord.

Definition cset := list citem.

Inductive quant : Type :=
| Once
| Star
| Plus
| Opt
| Exactly (n : nat).

Inductive node : Type :=
| Atom (cs : cset) (q : quant)
| Bol
| GroupOpen
| GroupClose.

Definition regex := list node.

(** The characters [lo], [lo+1], ... (at most [n] of them). *)
Fixpoint chars_from (lo : N) (n : nat) : list ascii :=
  match n with
  | O => []
  | S n' => ascii_of_N lo :: chars_from (lo + 1) n'
  end.

Definition chars_between (lo hi : ascii) : list ascii :=
  chars_from (code lo) (N.to_nat (code hi + 1 - code lo)).

(** A character with another case form; 181 and 255 have theirs beyond the
    range. *)
Definition iscased (c : ascii) : bool :=
  negb (Ascii.eqb (lower_char c) c) || negb (Ascii.eqb (upper_char c) c)
  || is_code 181 c || is_code 255 c.

Definition item_cased (it : citem) : bool :=
  match it with
  | CLit a => iscased a
  | CRange lo hi => existsb iscased (chars_between lo hi)
  | _ => false
  end.

(** Membership of [y] in one item; under [re.I] the literals and ranges are
    entered into the set in lower case. *)
Definition item_has (ic : bool) (it : citem) (y : ascii) : bool :=
  match it with
  | CLit a => Ascii.eqb y (if ic then lower_char a else a)
  | CRange lo hi =>
      if ic
      then existsb (fun a => Ascii.eqb y (lower_char a)) (chars_between lo hi)
      else in_range (code lo) (code hi) y
  | CDigit => isdecimal y
  | CSpace => isspace y
  | CWord => isword y
  end.

(** Does character [x] belong to the set?  Under [re.I] a set that holds a
    cased character is probed with the lower-case form of [x]. *)
Definition cset_match (ic : bool) (cs : cset) (x : ascii) : bool :=
  let fold := ic && existsb item_cased cs in
  existsb (fun it => item_has fold it (if fold then lower_char x else x)) cs.

(** The result of a successful run: where it ended, and where the group
    opened and closed. *)
Definition spans := (option nat * option nat)%type.
Definition outcome := (nat * spans)%type.

Section Backtracking.
Variable p : ascii -> bool.
Variable k : nat -> str -> option outcome.

Definition one (pos : nat) (s : str) : option outcome :=
  match s with
  | x :: s' => if p x then k (S pos) s' else None
  | [] => None
  end.

(** As many characters as possible, giving them back one at a time. *)
Fixpoint greedy (pos : nat) (s : str) : option outcome :=
  match s with
  | x :: s' =>
      if p x
      then match greedy (S pos) s' with
           | Some r => Some r
           | None => k pos s
           end
      else k pos s
  | [] => k pos s
  end.

Definition optional (pos : nat) (s : str) : option outcome :=
  match s with
  | x :: s' =>
      if p x
      then match k (S pos) s' with
           | Some r => Some r
           | None => k pos s
           end
      else k pos s
  | [] => k pos s
  end.

Fixpoint times (n : nat) (pos : nat) (s : str) : option outcome :=
  match n with
  | O => k pos s
  | S n' =>
      match s with
      | x :: s' => if p x then times n' (S pos) s' else None
      | [] => None
      end
  end.
End Backtracking.

(** Match [re] against [s], which starts at offset [pos] of the subject. *)
Fixpoint run (ic : bool) (re : regex) (g : spans) (pos : nat) (s : str)
  : option outcome :=
  match re with
  | [] => Some (pos, g)
  | Bol :: re' => if pos =? 0 then run ic re' g pos s else None
  | GroupOpen :: re' => run ic re' (Some pos, snd g) pos s
  | GroupClose :: re' => run ic re' (fst g, Some pos) pos s
  | Atom cs q :: re' =>
      let p := cset_match ic cs in
      let k := run ic re' g in
      match q with
      | Once => one p k pos s
      | Star => greedy p k pos s
      | Plus => one p (greedy p k) pos s
      | Opt => optional p k pos s
      | Exactly n => times p k n pos s
      end
  end.

(** A match object: the span of the match and of group 1. *)
Record rmatch : Type := mk_rmatch {
  m_start : nat;
  m_end : nat;
  m_group : spans
}.

Definition attempt (ic : bool) (re : regex) (pos : nat) (s : str) : option rmatch :=
  match run ic re (None, None) pos s with
  | Some (e, g) => Some (mk_rmatch pos e g)
  | None => None
  end.

(** [re.match(re, s)]: at offset 0 only. *)
Definition re_match (ic : bool) (re : regex) (s : str) : option rmatch :=
  attempt ic re 0 s.

Fixpoint search_from (ic : bool) (re : regex) (pos : nat) (s : str) : option rmatch :=
  match attempt ic re pos s with
  | Some m => Some m
  | None =>
      match s with
      | [] => None
      | _ :: s' => search_from ic re (S pos) s'
      end
  end.

(** [re.search(re, s)]: the leftmost offset at which a match exists. *)
Definition re_search (ic : bool) (re : regex) (s : str) : option rmatch :=
  search_from ic re 0 s.

(** [m.group(1)] on subject [s]. *)
Definition group1 (s : str) (m : rmatch) : str :=
  match m_group m with
  | (Some a, Some b) => slice s a b
  | _ => []
  end.

(** Pattern notation. *)
Definition lit (s : string) : regex := map (fun a => Atom [CLit a] Once) (T s).
Definition sp (q : quant) : regex := [Atom [CSpace] q].
Definition dg (q : quant) : regex := [Atom [CDigit] q].
Definition wd (q : quant) : regex := [Atom [CWord] q].
Definition grp (r : regex) : regex := GroupOpen :: r ++ [GroupClose].

(** ** Results that may raise *)

Inductive res (A : Type) : Type :=
| Ok (a : A)
| ValueError.

Arguments Ok {A} a.
Arguments ValueError {A}.

Definition bind {A B : Type} (r : res A) (f : A -> res B) : res B :=
  match r with
  | Ok a => f a
  | ValueError => ValueError
  end.

Notation "x <- r ;; k" := (bind r (fun x => k))
  (at level 61, r at next level, right associativity).

Definition of_option {A : Type} (o : option A) : res A :=
  match o with
  | Some a => Ok a
  | None => ValueError
  end.

(** Python truth value of [None] or a string. *)
Definition truthy (o : option str) : bool :=
  match o with
  | Some (_ :: _) => true
  | _ => false
  end.

Definition is_some {A : Type} (o : option A) : bool :=
  match o with
  | Some _ => true
  | None => false
  end.

(** ** [extract_metadata] *)

Record Meta : Type := mk_meta {
  group_number : option str;
  overall_limit : Z;
  policy_expiry : option str;
  end_date : str;
  class : str;
  deductible : option str
}.

Definition default_meta : Meta :=
  {| group_number := None;
     overall_limit := 1000000;
     policy_expiry := None;
     end_date := T "2023-02-16";
     class := T "B";
     deductible := None |}.

Inductive key : Type :=
| k_group_number
| k_overall_limit
| k_policy_expiry
| k_class
| k_deductible.

Definition pat_group_number : regex :=
  lit "group" ++ sp Star ++ lit "number" ++ sp Plus ++ grp (dg Plus).

Definition pat_overall_limit : regex :=
  lit "overall" ++ sp Star ++ lit "benefit" ++ sp Star ++ lit "limit" ++ sp Plus
  ++ grp [Atom [CDigit; CLit ","] Plus].

Definition pat_policy_expiry : regex :=
  lit "policy" ++ sp Star ++ lit "expiry" ++ sp Star ++ lit "date" ++ sp Plus
  ++ grp (wd Plus ++ sp Plus ++ dg Plus ++ lit "," ++ sp Plus ++ dg Plus).

Definition pat_class : regex :=
  lit "class" ++ sp Plus ++ grp [Atom [CRange "A" "Z"] Once].

Definition pat_deductible : regex :=
  lit "deductible" ++ sp Plus
  ++ grp [Atom [CDigit; CLit "%"; CSpace; CWord; CLit "."] Plus].

(** The [patterns] dictionary, in its insertion order. *)
Definition patterns : list (key * regex) :=
  [ (k_group_number, pat_group_number);
    (k_overall_limit, pat_overall_limit);
    (k_policy_expiry, pat_policy_expiry);
    (k_class, pat_class);
    (k_deductible, pat_deductible) ].

(** [meta[key] = v] for the keys that hold text. *)
Definition set_text (k : key) (v : str) (meta : Meta) : Meta :=
  match k with
  | k_group_number =>
      mk_meta (Some v) (overall_limit meta) (policy_expiry meta)
              (end_date meta) (class meta) (deductible meta)
  | k_policy_expiry =>
      mk_meta (group_number meta) (overall_limit meta) (Some v)
              (end_date meta) (class meta) (deductible meta)
  | k_class =>
      mk_meta (group_number meta) (overall_limit meta) (policy_expiry meta)
              (end_date meta) v (deductible meta)
  | k_deductible =>
      mk_meta (group_number meta) (overall_limit meta) (policy_expiry meta)
              (end_date meta) (class meta) (Some v)
  | k_overall_limit => meta
  end.

Definition set_overall_limit (n : Z) (meta : Meta) : Meta :=
  mk_meta (group_number meta) n (policy_expiry meta)
          (end_date meta) (class meta) (deductible meta).

Definition set_end_date (d : str) (meta : Meta) : Meta :=
  mk_meta (group_number meta) (overall_limit meta) (policy_expiry meta)
          d (class meta) (deductible meta).

(** One turn of the loop over [patterns.items()]. *)
Definition apply_pattern (text : str) (meta : Meta) (kp : key * regex) : res Meta :=
  let '(k, pat) := kp in
  match re_search true pat text with
  | Some m =>
      match k with
      | k_overall_limit =>
          n <- of_option (py_int (remove_commas (group1 text m))) ;;
          Ok (set_overall_limit n meta)
      | _ => Ok (set_text k (strip (group1 text m)) meta)
      end
  | None => Ok meta
  end.

Fixpoint apply_patterns (text : str) (meta : Meta) (ps : list (key * regex))
  : res Meta :=
  match ps with
  | [] => Ok meta
  | kp :: ps' =>
      meta' <- apply_pattern text meta kp ;;
      apply_patterns text meta' ps'
  end.

Section Metadata.
(** [datetime.strptime(s, "%b %d, %Y").strftime("%Y-%m-%d")], which depends
    on the locale and the platform; [None] stands for its [ValueError]. *)
Variable reformat_date : str -> option str.

Definition normalise_end_date (meta : Meta) : Meta :=
  if truthy (policy_expiry meta) then
    match policy_expiry meta with
    | Some e =>
        match reformat_date e with
        | Some d => set_end_date d meta
        | None => meta
        end
    | None => meta
    end
  else meta.

(** [extract_metadata], on the text of the first page. *)
Definition extract_metadata (text : str) : res Meta :=
  meta <- apply_patterns text default_meta patterns ;;
  Ok (normalise_end_date meta).
End Metadata.

(** ** [extract_claims_data] *)

Module Claims.
Record ClaimRecord : Type := mk {
  Monthly_Claims : str;
  Number_of_Insured_Lives : Z;
  Number_of_Claims : Z;
  Amount_of_Paid_Claims : pyfloat;
  Amount_of_Paid_Claims_VAT : pyfloat;
  Policy_Year : str;
  End_Date : str;
  Class : str;
  Overall_Limit : Z
}.
End Claims.
Import Claims(ClaimRecord).

(** In source the optional dash set also holds the en dash (code point
    8211), which no text of the modelled range contains. *)
Definition pat_two_years_prior : regex :=
  lit "policy" ++ sp Star ++ lit "year" ++ sp Star ++ [Atom [CLit "-"] Opt]
  ++ sp Star ++ lit "2" ++ sp Star ++ lit "years" ++ sp Star ++ lit "prior".

Definition pat_prior_policy_year : regex :=
  lit "prior" ++ sp Star ++ lit "policy" ++ sp Star ++ lit "year".

Definition pat_last_policy_year : regex :=
  lit "last" ++ sp Star ++ lit "policy" ++ sp Star ++ lit "year".

Definition pat_six_digits : regex := Bol :: dg (Exactly 6).

(** The label a header line sets, if the line is one. *)
Definition header_label (line : str) : option str :=
  if is_some (re_search true pat_two_years_prior line) then Some (T "2 years Prior")
  else if is_some (re_search true pat_prior_policy_year line) then Some (T "Prior Policy Year")
  else if is_some (re_search true pat_last_policy_year line) then Some (T "Last Policy Year")
  else None.

(** The [if]/[elif]/[elif] on [current_section]. *)
Definition header_transition (current_section : option str) (line : str)
  : option str :=
  match header_label line with
  | Some l => Some l
  | None => current_section
  end.

(** The dictionary built under [try]; [ValueError] when a number does not
    parse. *)
Definition build_record (meta : Meta) (current_section : str) (parts : list str)
  : res ClaimRecord :=
  lives <- of_option (py_int (nth 1 parts [])) ;;
  count <- of_option (py_int (nth 2 parts [])) ;;
  paid <- of_option (py_float (remove_commas (nth 3 parts []))) ;;
  vat <- of_option (py_float (remove_commas (nth 4 parts []))) ;;
  Ok (Claims.mk (nth 0 parts []) lives count paid vat current_section
                (end_date meta) (class meta) (overall_limit meta)).

(** The guard on [parts[3]] and [parts[4]]. *)
Definition empty_amount (parts : list str) : bool :=
  str_eqb (strip (nth 3 parts [])) [] || str_eqb (strip (nth 4 parts [])) [].

(** Is the stripped line tested as a data line, given the section in force
    after the header test? *)
Definition data_line (current_section : option str) (line : str) : bool :=
  truthy current_section && is_some (re_match false pat_six_digits line).

(** What a data line appends to [claims]. *)
Definition parse_data_line (meta : Meta) (current_section : str) (line : str)
  : list ClaimRecord :=
  let parts := str_split line in
  if 5 <=? List.length parts then
    if empty_amount parts then []
    else
      match build_record meta current_section parts with
      | Ok r => [r]
      | ValueError => []
      end
  else [].

(** What one turn of the loop appends, from the section in force when the
    line is reached: the new section and the new records. *)
Definition emit (meta : Meta) (current_section : option str) (raw : str)
  : option str * list ClaimRecord :=
  let line := strip raw in
  let current_section := header_transition current_section line in
  if negb (truthy current_section) then (current_section, [])
  else if is_some (re_match false pat_six_digits line)
  then (current_section,
        match current_section with
        | Some sec => parse_data_line meta sec line
        | None => []
        end)
  else (current_section, []).

(** One turn of [for line in lines], on the state [(current_section, claims)]. *)
Definition loop_body (meta : Meta) (st : option str * list ClaimRecord) (raw : str)
  : option str * list ClaimRecord :=
  let '(section', new) := emit meta (fst st) raw in
  (section', snd st ++ new).

Definition run_lines (meta : Meta) (lines : list str) (st : option str * list ClaimRecord)
  : option str * list ClaimRecord :=
  fold_left (loop_body meta) lines st.

(** The loop of [extract_claims_data] on the lines of the page. *)
Definition parse_lines (meta : Meta) (lines : list str) : list ClaimRecord :=
  snd (run_lines meta lines (None, [])).

Definition required_cols : list str :=
  map T [ "Monthly_Claims"; "Number_of_Insured_Lives"; "Number_of_Claims";
          "Amount_of_Paid_Claims"; "Amount_of_Paid_Claims_VAT"; "Policy_Year";
          "End_Date"; "Class"; "Overall_Limit" ]%string.

(** A data frame: its column labels and its rows under their index labels. *)
Record DataFrame (R : Type) : Type := mk_frame {
  columns : list str;
  rows : list (nat * R)
}.

Definition enumerate {A : Type} (l : list A) : list (nat * A) :=
  combine (seq 0 (List.length l)) l.

Definition extract_claims_data (reformat_date : str -> option str) (text : str)
  : res (DataFrame ClaimRecord) :=
  meta <- extract_metadata reformat_date text ;;
  Ok (mk_frame required_cols
        (enumerate (parse_lines meta (split_on "010"%char text)))).

(** ** [_process_notes] *)

Definition pat_paid_pct : regex :=
  lit "paid" ++ sp Plus ++ grp (dg Plus) ++ sp Star ++ lit "%".

Definition pat_pct_up_to : regex :=
  grp (dg Plus) ++ sp Star ++ lit "%" ++ sp Star ++ lit "up" ++ sp Star ++ lit "to".

Definition pat_pct : regex :=
  grp (dg Plus) ++ sp Star ++ lit "%".

Definition note_patterns : list regex := [pat_paid_pct; pat_pct_up_to; pat_pct].

(** The [for pat in ...] loop: the first pattern found decides. *)
Fixpoint probe (pats : list regex) (combined : str) : option str :=
  match pats with
  | [] => None
  | pat :: pats' =>
      match re_search false pat combined with
      | Some m => Some (group1 combined m ++ T "%")
      | None => probe pats' combined
      end
  end.

Definition combine_notes (txt full_line : str) : str :=
  lower (txt ++ T " " ++ full_line).

Definition _process_notes (txt full_line : str) : str :=
  let combined := combine_notes txt full_line in
  match probe note_patterns combined with
  | Some r => r
  | None =>
      if contains (T "cesarean") combined then T "yes" else T "No info"
  end.

(** ** [extract_benefits_data] *)

Module Benefits.
(** A row of the grid once the five column labels are set. *)
Record RawRow : Type := raw {
  raw_Benefit_Sama : str;
  raw_Number_of_Claims : str;
  raw_Amount_of_Claims : str;
  raw_Amount_of_Claims_VAT : str;
  Notes_raw : str
}.

(** A cell of a numeric column: text, or a float once the column is cast. *)
Inductive cell : Type :=
| CStr (s : str)
| CFloat (f : pyfloat).

Record BenefitRecord : Type := mk {
  Benefit_Sama : str;
  Number_of_Claims : cell;
  Amount_of_Claims : cell;
  Amount_of_Claims_VAT : cell;
  Notes : str;
  Policy_Year : str;
  End_Date : str;
  Class : str;
  Overall_Limit : Z
}.
End Benefits.
Import Benefits(RawRow, cell, CStr, CFloat, BenefitRecord).

Definition pat_digits : regex := dg Plus.

(** The boolean mask [ben_df["Number_of_Claims"].str.match(r"\d+")] applied
    to the frame: the rows kept, under their index labels. *)
Definition keep_row (r : RawRow) : bool :=
  is_some (re_match false pat_digits (Benefits.raw_Number_of_Claims r)).

Definition filter_rows (grid : list RawRow) : list (nat * RawRow) :=
  filter (fun ir => keep_row (snd ir)) (enumerate grid).

(** All the floats, or nothing as soon as one text does not convert. *)
Fixpoint all_floats (col : list str) : option (list pyfloat) :=
  match col with
  | [] => Some []
  | s :: col' =>
      match py_float s, all_floats col' with
      | Some f, Some fs => Some (f :: fs)
      | _, _ => None
      end
  end.

(** [col.astype(float, errors="ignore")]: the cast column, or on any error
    the column as it was handed in. *)
Definition astype_float_ignore (col : list str) : list cell :=
  match all_floats col with
  | Some fs => map CFloat fs
  | None => map CStr col
  end.

(** [ben_df[col].str.replace(",", "").astype(float, errors="ignore")] *)
Definition convert_column (col : list str) : list cell :=
  astype_float_ignore (map remove_commas col).

(** The final frame, row by row, from the kept rows and the three converted
    columns. *)
Fixpoint assemble (meta : Meta) (kept : list (nat * RawRow))
  (counts amounts vats : list cell) : list (nat * BenefitRecord) :=
  match kept, counts, amounts, vats with
  | (i, r) :: kept', n :: counts', a :: amounts', v :: vats' =>
      (i, Benefits.mk (Benefits.raw_Benefit_Sama r) n a v
            (_process_notes (Benefits.Notes_raw r) (Benefits.Notes_raw r))
            (T "Last Policy Year") (end_date meta) (class meta)
            (overall_limit meta))
      :: assemble meta kept' counts' amounts' vats'
  | _, _, _, _ => []
  end.

Definition benefit_cols : list str :=
  map T [ "Benefit_Sama"; "Number_of_Claims"; "Amount_of_Claims";
          "Amount_of_Claims_VAT"; "Notes"; "Policy_Year"; "End_Date"; "Class";
          "Overall_Limit" ]%string.

(** The body of [extract_benefits_data] after the metadata and the grid are
    read. *)
Definition normalize (meta : Meta) (grid : list RawRow) : DataFrame BenefitRecord :=
  let kept := filter_rows grid in
  let column (f : RawRow -> str) := convert_column (map (fun ir => f (snd ir)) kept) in
  mk_frame benefit_cols
    (assemble meta kept
       (column Benefits.raw_Number_of_Claims)
       (column Benefits.raw_Amount_of_Claims)
       (column Benefits.raw_Amount_of_Claims_VAT)).

Definition extract_benefits_data (reformat_date : str -> option str)
  (text : str) (grid : list RawRow) : res (DataFrame BenefitRecord) :=
  meta <- extract_metadata reformat_date text ;;
  Ok (normalize meta grid).

(** ** [validate_dataframes] *)

Definition req_claims : list str := required_cols.
Definition req_ben : list str := benefit_cols.

Definition has_column (cols : list str) (col : str) : bool :=
  existsb (str_eqb col) cols.

(** One of the two [for col in ...] loops, on the state [(ok, log)];
    [logger.error] appends its message to the log. *)
Definition check_columns (prefix : str) (cols : list str) (req : list str)
  (st : bool * list str) : bool * list str :=
  fold_left
    (fun st col =>
       if negb (has_column cols col)
       then (false, snd st ++ [prefix ++ col])
       else st)
    req st.

Definition validate_dataframes {A B : Type} (claims : DataFrame A) (ben : DataFrame B)
  : bool * list str :=
  let st := (true, []) in
  let st := check_columns (T "Missing claims column: ") (columns claims) req_claims st in
  let st := check_columns (T "Missing benefits column: ") (columns ben) req_ben st in
  st.

(** ** Notions used to state the properties *)

(** The numbers of characters a quantifier allows. *)
Definition quant_ok (q : quant) (n : nat) : Prop :=
  match q with
  | Once => n = 1
  | Star => True
  | Plus => 1 <= n
  | Opt => n <= 1
  | Exactly m => n = m
  end.

(** All the ways a pattern can match: [path ic re g pos s r] holds when [re]
    can consume a prefix of [s] (found at offset [pos]) and end in [r],
    whatever the order in which the alternatives are tried. *)
Fixpoint path (ic : bool) (re : regex) (g : spans) (pos : nat) (s : str)
  (r : outcome) : Prop :=
  match re with
  | [] => r = (pos, g)
  | Bol :: re' => pos = 0 /\ path ic re' g pos s r
  | GroupOpen :: re' => path ic re' (Some pos, snd g) pos s r
  | GroupClose :: re' => path ic re' (fst g, Some pos) pos s r
  | Atom cs q :: re' =>
      exists u v,
        s = u ++ v /\ forallb (cset_match ic cs) u = true
        /\ quant_ok q (List.length u)
        /\ path ic re' g (pos + List.length u) v r
  end.

(** [s] holds [sub] somewhere. *)
Definition occurs (sub s : str) : Prop := exists pre post, s = pre ++ sub ++ post.

(** The three labels a section can carry. *)
Definition section_labels : list str :=
  map T ["2 years Prior"; "Prior Policy Year"; "Last Policy Year"]%string.

(** The values [current_section] takes. *)
Definition section_ok (cs : option str) : Prop :=
  cs = None \/ exists l, In l section_labels /\ cs = Some l.

(** The line begins with six decimal digits. *)
Definition six_leading_digits (line : str) : bool :=
  (6 <=? List.length line) && forallb isdecimal (firstn 6 line).

(** The first white-space token of the line is made of exactly six digits. *)
Definition first_token_six_digits (line : str) : bool :=
  match str_split line with
  | t :: _ => (List.length t =? 6) && forallb isdecimal t
  | [] => false
  end.

(** The label of the latest header line among [seen], if there is one. *)
Fixpoint last_header_from (acc : option str) (seen : list str) : option str :=
  match seen with
  | [] => acc
  | raw :: seen' =>
      last_header_from
        (match header_label (strip raw) with Some l => Some l | None => acc end)
        seen'
  end.

Definition last_header (seen : list str) : option str := last_header_from None seen.

(** The loop of [extract_claims_data] again, each record with the index of
    the line it was read from. *)
Fixpoint run_indexed (meta : Meta) (i : nat) (current_section : option str)
  (lines : list str) : list (nat * ClaimRecord) :=
  match lines with
  | [] => []
  | raw :: lines' =>
      let '(section', new) := emit meta current_section raw in
      map (pair i) new ++ run_indexed meta (S i) section' lines'
  end.

Definition parse_lines_indexed (meta : Meta) (lines : list str)
  : list (nat * ClaimRecord) :=
  run_indexed meta 0 None lines.

(** The cell is a non-empty run of decimal digits and nothing else. *)
Definition fully_numeric (s : str) : bool :=
  match s with
  | [] => false
  | _ :: _ => forallb isdecimal s
  end.

(** The cell begins with a decimal digit. *)
Definition leading_digit (s : str) : bool :=
  match s with
  | c :: _ => isdecimal c
  | [] => false
  end.

(** A cell converted on its own: the float of its text without commas, or
    the text as it was. *)
Definition cellwise (s : str) : cell :=
  match py_float (remove_commas s) with
  | Some f => CFloat f
  | None => CStr s
  end.

(** A single upper-case letter of the modelled range. *)
Definition single_uppercase (s : str) : bool :=
  match s with
  | [c] => negb (Ascii.eqb (lower_char c) c)
  | _ => false
  end.

(** The diagnostics for the columns of [req] that [cols] lacks, in order. *)
Definition missing_diagnostics (prefix : str) (cols req : list str) : list str :=
  map (app prefix) (filter (fun col => negb (has_column cols col)) req).

(** The text holds no white space. *)
Definition no_space (t : str) : Prop := forallb (fun c => negb (isspace c)) t = true.

(** The record [assemble] builds for grid row [r] and its three cells. *)
Definition enrich (meta : Meta) (r : RawRow) (n a v : cell) : BenefitRecord :=
  Benefits.mk (Benefits.raw_Benefit_Sama r) n a v
    (_process_notes (Benefits.Notes_raw r) (Benefits.Notes_raw r))
    (T "Last Policy Year") (end_date meta) (class meta) (overall_limit meta).

(** A pattern without group marks. *)
Definition plain (re : regex) : bool :=
  forallb (fun n => match n with GroupOpen | GroupClose => false | _ => true end) re.

(** The least number of characters a pattern consumes. *)
Definition min_quant (q : quant) : nat :=
  match q with
  | Once | Plus => 1
  | Star | Opt => 0
  | Exactly n => n
  end.

Fixpoint min_len (re : regex) : nat :=
  match re with
  | [] => 0
  | Atom _ q :: re' => min_quant q + min_len re'
  | _ :: re' => min_len re'
  end.

(** Every character of [w] belongs to the set of some atom of [re]. *)
Definition node_has (ic : bool) (c : ascii) (n : node) : bool :=
  match n with
  | Atom cs _ => cset_match ic cs c
  | _ => false
  end.

Definition allin (ic : bool) (re : regex) (w : str) : bool :=
  forallb (fun c => existsb (node_has ic c) re) w.

(** Every atom consumes a fixed number of characters. *)
Definition fixed (re : regex) : bool :=
  forallb (fun n => match n with
                    | Atom _ Once | Atom _ (Exactly _) => true
                    | _ => false
                    end) re.

(** A letter of the basic Latin alphabet, of either case. *)
Definition ascii_letter (c : ascii) : bool :=
  in_range 65 90 c || in_range 97 122 c.

(** The class is the default, or one letter of either case. *)
Definition class_ok (meta : Meta) : Prop :=
  class meta = T "B" \/ exists c, class meta = [c] /\ ascii_letter c = true.

(** No expiry date was read and the end date is the default one. *)
Definition no_expiry (meta : Meta) : Prop :=
  policy_expiry meta = None /\ end_date meta = T "2023-02-16".

(** ** [process_pdf] *)

Inductive error : Type :=
| FileNotFoundError
| ValueError_raised.

(** What a call gives: a value, or the exception it raises. *)
Inductive answer (A : Type) : Type :=
| Returned (a : A)
| Raised (e : error).

Arguments Returned {A} a.
Arguments Raised {A} e.

Definition of_res {A : Type} (r : res A) : answer A :=
  match r with
  | Ok a => Returned a
  | ValueError => Raised ValueError_raised
  end.

(** [process_pdf]: [path_exists] is [os.path.exists(pdf_path)]; the page
    text and the grid are what the two readers give for the file, which
    stays as it is during the call.  The two frames stand for the entries
    ["claims"] and ["benefits"] of the dictionary. *)
Definition process_pdf (reformat_date : str -> option str) (path_exists : bool)
  (text : str) (grid : list RawRow)
  : answer (DataFrame ClaimRecord * DataFrame BenefitRecord) :=
  if negb path_exists then Raised FileNotFoundError
  else
    match of_res (extract_claims_data reformat_date text) with
    | Raised e => Raised e
    | Returned claims_df =>
        match of_res (extract_benefits_data reformat_date text grid) with
        | Raised e => Raised e
        | Returned ben_df => Returned (claims_df, ben_df)
        end
    end.

(** ** Further notions *)

(** The first character, if any, is not white space. *)
Definition clean_head (s : str) : Prop :=
  match s with
  | [] => True
  | c :: _ => isspace c = false
  end.

(** All the characters of the modelled range. *)
Definition all_chars : list ascii := chars_from 0 256.

(** No set of the pattern tells a character from its lower-case form. *)
Definition caseblind (re : regex) : bool :=
  forallb (fun n =>
             match n with
             | Atom cs _ =>
                 forallb (fun x => Bool.eqb (cset_match true cs (lower_char x))
                                            (cset_match true cs x)) all_chars
             | _ => true
             end) re.

(** The text holds digits, then white space or none, then a percent sign. *)
Definition has_percent (s : str) : Prop :=
  exists pre ds ws post,
    s = pre ++ ds ++ ws ++ T "%" ++ post
    /\ ds <> [] /\ forallb isdecimal ds = true /\ forallb isspace ws = true.

(** A result of the note classifier that is a percentage. *)
Definition is_percentage (r : str) : Prop :=
  exists ds, r = ds ++ T "%" /\ ds <> [] /\ forallb isdecimal ds = true.

(** The record with the three values copied from the metadata replaced. *)
Definition restamp (meta : Meta) (r : ClaimRecord) : ClaimRecord :=
  Claims.mk (Claims.Monthly_Claims r) (Claims.Number_of_Insured_Lives r)
    (Claims.Number_of_Claims r) (Claims.Amount_of_Paid_Claims r)
    (Claims.Amount_of_Paid_Claims_VAT r) (Claims.Policy_Year r)
    (end_date meta) (class meta) (overall_limit meta).

(** The cells of the three numeric columns of a benefits row. *)
Definition numeric_cells (b : BenefitRecord) : list cell :=
  [Benefits.Number_of_Claims b; Benefits.Amount_of_Claims b;
   Benefits.Amount_of_Claims_VAT b].

Definition is_float (c : cell) : bool :=
  match c with
  | CFloat _ => true
  | CStr _ => false
  end.

(** A text cell without a comma. *)
Definition comma_free_text (c : cell) : bool :=
  match c with
  | CStr s => negb (existsb (is_code 44) s)
  | CFloat _ => false
  end.

(** * Properties *)

(** A turn of the pattern loop that hands the metadata on as it is. *)
Ltac same_meta Hok :=
  let E := fresh "E" in intros E; injection E as <-; exact Hok.

(** ** Strings *)

Lemma str_eqb_eq (a b : str) : str_eqb a b = true <-> a = b.
Proof.
  unfold str_eqb. destruct (list_eq_dec ascii_dec a b); split; congruence.
Qed.

Lemma str_eqb_refl (a : str) : str_eqb a a = true.
Proof. now apply str_eqb_eq. Qed.

Lemma str_eqb_neq (a b : str) : str_eqb a b = false <-> a <> b.
Proof.
  unfold str_eqb. destruct (list_eq_dec ascii_dec a b); split; congruence.
Qed.

Lemma no_space_rev (t : str) : no_space t -> no_space (rev t).
Proof.
  unfold no_space. rewrite !forallb_forall. intros H c Hc.
  apply H. now apply in_rev.
Qed.

Lemma lstrip_no_space (t : str) : no_space t -> lstrip t = t.
Proof.
  destruct t as [|c t]; [reflexivity|]. unfold no_space. simpl.
  intros H. apply andb_true_iff in H as [H _].
  apply negb_true_iff in H. now rewrite H.
Qed.

Lemma strip_no_space (t : str) : no_space t -> strip t = t.
Proof.
  intros H. unfold strip, rstrip. rewrite (lstrip_no_space H).
  rewrite (lstrip_no_space (no_space_rev H)). apply rev_involutive.
Qed.

(** [str.split()] only gives non-empty tokens free of white space. *)
Lemma split_loop_tokens (s cur : str) :
  no_space cur ->
  Forall (fun t => t <> [] /\ no_space t) (split_loop cur s).
Proof.
  revert cur. induction s as [|c s IH]; intros cur Hcur; simpl.
  - destruct cur as [|x cur]; constructor; [|constructor].
    split; [|now apply no_space_rev].
    intros E. apply (f_equal (@rev ascii)) in E.
    rewrite rev_involutive in E. discriminate.
  - destruct (isspace c) eqn:Hc.
    + destruct cur as [|x cur].
      * now apply IH.
      * constructor; [|now apply IH].
        split; [|now apply no_space_rev].
        intros E. apply (f_equal (@rev ascii)) in E.
        rewrite rev_involutive in E. discriminate.
    + apply IH. unfold no_space in *. simpl. now rewrite Hc.
Qed.

Lemma str_split_tokens (s : str) :
  Forall (fun t => t <> [] /\ no_space t) (str_split s).
Proof. now apply split_loop_tokens. Qed.

Lemma str_split_strip_token (s : str) :
  Forall (fun t => t <> [] /\ strip t = t) (str_split s).
Proof.
  eapply Forall_impl; [|apply str_split_tokens].
  intros t [Hne Hns]. split; [assumption|now apply strip_no_space].
Qed.

Lemma nth_split_not_empty (s : str) (i : nat) :
  i < List.length (str_split s) ->
  str_eqb (strip (nth i (str_split s) [])) [] = false.
Proof.
  intros Hi. apply str_eqb_neq.
  pose proof (str_split_strip_token s) as H.
  rewrite Forall_forall in H.
  destruct (H (nth i (str_split s) [])) as [Hne Hst].
  - now apply nth_In.
  - now rewrite Hst.
Qed.

Lemma empty_amount_false (line : str) :
  5 <= List.length (str_split line) -> empty_amount (str_split line) = false.
Proof.
  intros H. unfold empty_amount.
  rewrite !nth_split_not_empty by lia. reflexivity.
Qed.

(** C10. The guard of [extract_claims_data] that skips a data line whose
    fourth or fifth token is empty once stripped never fires: the tokens
    [line.split()] gives are non-empty and are their own stripped form, so on
    a line of five tokens or more the emptiness test is false. *)
Theorem empty_amount_guard_unreachable (line : str) :
  5 <= List.length (str_split line) ->
  empty_amount (str_split line) = false
  /\ Forall (fun t => t <> [] /\ strip t = t) (str_split line).
Proof.
  intros H. split; [now apply empty_amount_false|apply str_split_strip_token].
Qed.

Lemma empty_amount_guard_unreachable_witness :
  5 <= List.length (str_split (T "123456 100 10 1,000.00 50.00"))
  /\ empty_amount (str_split (T "123456 100 10 1,000.00 50.00")) = false.
Proof.
  split.
  - vm_compute. lia.
  - apply (empty_amount_guard_unreachable (T "123456 100 10 1,000.00 50.00")).
    vm_compute. lia.
Defined.

(** ** The matcher against the set of all matches *)

Section BacktrackingFacts.
Variable p : ascii -> bool.
Variable k : nat -> str -> option outcome.

Lemma one_sound pos s r :
  one p k pos s = Some r ->
  exists x s', s = x :: s' /\ p x = true /\ k (S pos) s' = Some r.
Proof.
  destruct s as [|x s']; simpl; [discriminate|].
  destruct (p x) eqn:Hx; [|discriminate]. intros H. now exists x, s'.
Qed.

Lemma greedy_sound s : forall pos r,
  greedy p k pos s = Some r ->
  exists u v, s = u ++ v /\ forallb p u = true
              /\ k (pos + List.length u) v = Some r.
Proof.
  induction s as [|x s' IH]; intros pos r; simpl.
  - intros H. exists [], []. simpl. now rewrite Nat.add_0_r.
  - destruct (p x) eqn:Hx.
    + destruct (greedy p k (S pos) s') as [r'|] eqn:Hg.
      * intros E. injection E as <-.
        destruct (IH _ _ Hg) as (u & v & -> & Hu & Hk).
        exists (x :: u), v. simpl. rewrite Hx, Hu.
        repeat split. now rewrite Nat.add_succ_r.
      * intros H. exists [], (x :: s'). simpl. now rewrite Nat.add_0_r.
    + intros H. exists [], (x :: s'). simpl. now rewrite Nat.add_0_r.
Qed.

Lemma optional_sound pos s r :
  optional p k pos s = Some r ->
  exists u v, s = u ++ v /\ forallb p u = true /\ List.length u <= 1
              /\ k (pos + List.length u) v = Some r.
Proof.
  assert (Hnil : k pos s = Some r ->
    exists u v, s = u ++ v /\ forallb p u = true /\ List.length u <= 1
                /\ k (pos + List.length u) v = Some r).
  { intros H. exists [], s. simpl. rewrite Nat.add_0_r. repeat split; auto. }
  destruct s as [|x s']; simpl; [exact Hnil|].
  destruct (p x) eqn:Hx; [|exact Hnil].
  destruct (k (S pos) s') as [r'|] eqn:Hk; [|exact Hnil].
  intros E. injection E as <-. exists [x], s'. simpl. rewrite Hx.
  repeat split; auto. now rewrite Nat.add_1_r.
Qed.

Lemma times_spec n : forall pos s,
  times p k n pos s =
  if (n <=? List.length s) && forallb p (firstn n s)
  then k (pos + n) (skipn n s) else None.
Proof.
  induction n as [|n IH]; intros pos s; simpl.
  - now rewrite Nat.add_0_r.
  - destruct s as [|x s']; simpl; [reflexivity|].
    destruct (p x); simpl.
    + rewrite IH. now rewrite Nat.add_succ_r.
    + now rewrite andb_false_r.
Qed.

Lemma greedy_complete u : forall pos v,
  forallb p u = true ->
  k (pos + List.length u) v <> None ->
  greedy p k pos (u ++ v) <> None.
Proof.
  induction u as [|x u IH]; intros pos v Hu Hk; simpl in *.
  - rewrite Nat.add_0_r in Hk.
    destruct v as [|y v]; simpl; [assumption|].
    destruct (p y); [|assumption].
    destruct (greedy p k (S pos) v); [discriminate|assumption].
  - apply andb_true_iff in Hu as [Hx Hu]. rewrite Hx.
    rewrite Nat.add_succ_r in Hk.
    specialize (IH (S pos) v Hu Hk).
    destruct (greedy p k (S pos) (u ++ v)); [discriminate|congruence].
Qed.

Lemma optional_complete u pos v :
  forallb p u = true -> List.length u <= 1 ->
  k (pos + List.length u) v <> None ->
  optional p k pos (u ++ v) <> None.
Proof.
  intros Hu Hlen Hk.
  destruct u as [|x [|y u]]; simpl in *; [| |lia].
  - rewrite Nat.add_0_r in Hk.
    destruct v as [|y v]; simpl; [assumption|].
    destruct (p y); [|assumption].
    destruct (k (S pos) v); [discriminate|assumption].
  - rewrite andb_true_r in Hu. rewrite Hu. rewrite Nat.add_1_r in Hk.
    destruct (k (S pos) v); [discriminate|congruence].
Qed.
End BacktrackingFacts.

(** Whatever [run] returns is one of the matches of the pattern. *)
Lemma run_sound ic re : forall g pos s r,
  run ic re g pos s = Some r -> path ic re g pos s r.
Proof.
  induction re as [|n re IH]; intros g pos s r; simpl.
  - congruence.
  - destruct n as [cs q| | |].
    + destruct q as [| | | |m].
      * intros H. apply one_sound in H as (x & s' & -> & Hx & Hk).
        exists [x], s'. simpl. rewrite Hx, Nat.add_1_r. repeat split; auto.
      * intros H. apply greedy_sound in H as (u & v & -> & Hu & Hk).
        exists u, v. repeat split; auto.
      * intros H. apply one_sound in H as (x & s' & -> & Hx & Hk).
        apply greedy_sound in Hk as (u & v & -> & Hu & Hk).
        exists (x :: u), v. simpl. rewrite Hx, Hu.
        repeat split; [lia|]. rewrite Nat.add_succ_r. auto.
      * intros H. apply optional_sound in H as (u & v & -> & Hu & Hl & Hk).
        exists u, v. repeat split; auto.
      * rewrite times_spec.
        destruct (m <=? List.length s) eqn:Hm; simpl; [|discriminate].
        destruct (forallb (cset_match ic cs) (firstn m s)) eqn:Hf; [|discriminate].
        apply Nat.leb_le in Hm. intros H.
        exists (firstn m s), (skipn m s).
        rewrite firstn_skipn, length_firstn, Nat.min_l by lia.
        repeat split; auto.
    + destruct (pos =? 0) eqn:Hp; [|discriminate].
      apply Nat.eqb_eq in Hp. intros H. split; auto.
    + apply IH.
    + apply IH.
Qed.

(** Where the pattern has a match, [run] finds one. *)
Lemma run_complete ic re : forall g pos s r,
  path ic re g pos s r -> run ic re g pos s <> None.
Proof.
  induction re as [|n re IH]; intros g pos s r; simpl.
  - discriminate.
  - destruct n as [cs q| | |].
    + intros (u & v & -> & Hu & Hq & Hp). apply IH in Hp.
      destruct q as [| | | |m]; simpl in Hq.
      * destruct u as [|x [|y u]]; try discriminate. simpl in *.
        rewrite andb_true_r in Hu. rewrite Hu. now rewrite Nat.add_1_r in Hp.
      * now apply greedy_complete.
      * destruct u as [|x u]; simpl in *; [lia|].
        apply andb_true_iff in Hu as [Hx Hu]. rewrite Hx.
        apply greedy_complete; [assumption|]. now rewrite Nat.add_succ_r in Hp.
      * now apply optional_complete.
      * subst m. rewrite times_spec.
        rewrite length_app, firstn_app, Nat.sub_diag, firstn_all. simpl.
        rewrite app_nil_r, Hu.
        replace (List.length u <=? List.length u + List.length v) with true
          by (symmetry; apply Nat.leb_le; lia).
        simpl. rewrite skipn_app, skipn_all, Nat.sub_diag. simpl. assumption.
    + intros [-> Hp]. simpl. now apply IH in Hp.
    + apply IH.
    + apply IH.
Qed.

(** [re.search] succeeds as soon as some offset admits a match. *)
Lemma search_from_complete ic re pre : forall pos rest,
  attempt ic re (pos + List.length pre) rest <> None ->
  search_from ic re pos (pre ++ rest) <> None.
Proof.
  induction pre as [|x pre IH]; intros pos rest H; simpl in *.
  - rewrite Nat.add_0_r in H.
    destruct rest; simpl; destruct (attempt ic re pos _); congruence.
  - destruct (attempt ic re pos (x :: pre ++ rest)); [discriminate|].
    apply IH. now rewrite Nat.add_succ_r in H.
Qed.

(** The match [re.search] returns is a match of the pattern at its start
    offset, and no earlier offset admits one. *)
Lemma search_from_sound ic re s : forall pos m,
  search_from ic re pos s = Some m ->
  exists pre rest,
    s = pre ++ rest /\ m_start m = pos + List.length pre
    /\ path ic re (None, None) (m_start m) rest (m_end m, m_group m).
Proof.
  induction s as [|x s IH]; intros pos m; simpl.
  - destruct (attempt ic re pos []) as [m'|] eqn:Ha; [|discriminate].
    intros E. injection E as <-. exists [], []. simpl.
    unfold attempt in Ha.
    destruct (run ic re (None, None) pos []) as [[e g]|] eqn:Hr; [|discriminate].
    injection Ha as <-. simpl. rewrite Nat.add_0_r. repeat split.
    now apply run_sound.
  - destruct (attempt ic re pos (x :: s)) as [m'|] eqn:Ha.
    + intros E. injection E as <-. exists [], (x :: s). simpl.
      unfold attempt in Ha.
      destruct (run ic re (None, None) pos (x :: s)) as [[e g]|] eqn:Hr; [|discriminate].
      injection Ha as <-. simpl. rewrite Nat.add_0_r. repeat split.
      now apply run_sound.
    + intros H. apply IH in H as (pre & rest & -> & Hs & Hp).
      exists (x :: pre), rest. simpl. rewrite Nat.add_succ_r. repeat split; auto.
Qed.

(** [re.search] finds a match exactly when the pattern has one at some
    offset of the subject. *)
Lemma re_search_iff ic re s :
  re_search ic re s <> None
  <-> exists pre rest r,
        s = pre ++ rest /\ path ic re (None, None) (List.length pre) rest r.
Proof.
  unfold re_search. split.
  - destruct (search_from ic re 0 s) as [m|] eqn:Hs; [|congruence]. intros _.
    apply search_from_sound in Hs as (pre & rest & -> & Hstart & Hp).
    simpl in Hstart. rewrite Hstart in Hp. now exists pre, rest, (m_end m, m_group m).
  - intros (pre & rest & r & -> & Hp). apply search_from_complete.
    unfold attempt. simpl.
    apply run_complete in Hp.
    destruct (run ic re (None, None) (List.length pre) rest) as [[e g]|];
      [discriminate|congruence].
Qed.

(** ** The one-category sets *)

Lemma cset_digit ic x : cset_match ic [CDigit] x = isdecimal x.
Proof. destruct ic; unfold cset_match; simpl; now rewrite orb_false_r. Qed.

Lemma forallb_digit ic s :
  forallb (cset_match ic [CDigit]) s = forallb isdecimal s.
Proof.
  induction s as [|x s IH]; simpl; [reflexivity|]. now rewrite cset_digit, IH.
Qed.

(** [re.match(r"\d+", s)] succeeds exactly when [s] begins with a digit. *)
Lemma match_digits_leading (s : str) :
  is_some (re_match false pat_digits s) = leading_digit s.
Proof.
  unfold re_match, attempt.
  destruct (run false pat_digits (None, None) 0 s) as [[e g]|] eqn:Hr; simpl.
  - apply run_sound in Hr. simpl in Hr.
    destruct Hr as (u & v & -> & Hu & Hlen & _).
    destruct u as [|x u]; simpl in *; [lia|].
    apply andb_true_iff in Hu as [Hx _]. now rewrite cset_digit in Hx.
  - destruct s as [|x s]; [reflexivity|]. simpl.
    destruct (isdecimal x) eqn:Hx; [|reflexivity].
    exfalso. revert Hr.
    apply (@run_complete false pat_digits (None, None) 0 (x :: s) (1, (None, None))).
    simpl. exists [x], s. simpl. rewrite cset_digit, Hx. repeat split; auto.
Qed.

(** [re.match(r"^\d{6}", s)] succeeds exactly when the first six characters
    of [s] are digits. *)
Lemma match_six_digits (s : str) :
  is_some (re_match false pat_six_digits s) = six_leading_digits s.
Proof.
  unfold re_match, attempt, pat_six_digits, dg, six_leading_digits.
  cbn [run app Nat.eqb]. rewrite times_spec.
  rewrite (forallb_digit false).
  destruct ((6 <=? List.length s) && forallb isdecimal (firstn 6 s)); reflexivity.
Qed.

(** ** Index labels *)

Lemma enumerate_from_in {A : Type} (l : list A) : forall a i (x : A),
  In (i, x) (combine (seq a (List.length l)) l) <->
  a <= i /\ nth_error l (i - a) = Some x.
Proof.
  induction l as [|y l IH]; intros a i x; simpl.
  - split; [tauto|]. intros [_ H]. destruct (i - a); discriminate.
  - rewrite IH. split.
    + intros [E | [Hle Hn]].
      * injection E as <- <-. rewrite Nat.sub_diag. simpl. auto.
      * split; [lia|]. replace (i - a) with (S (i - S a)) by lia. exact Hn.
    + intros [Hle Hn]. destruct (Nat.eq_dec a i) as [<- | Hne].
      * rewrite Nat.sub_diag in Hn. simpl in Hn. left. congruence.
      * right. split; [lia|].
        replace (i - a) with (S (i - S a)) in Hn by lia. exact Hn.
Qed.

Lemma enumerate_in {A : Type} (l : list A) i (x : A) :
  In (i, x) (enumerate l) <-> nth_error l i = Some x.
Proof.
  unfold enumerate. rewrite enumerate_from_in, Nat.sub_0_r.
  split; [tauto|]. intros H. split; [lia|assumption].
Qed.

Lemma filter_enumerate_sorted {A : Type} (f : nat * A -> bool) (l : list A) :
  forall a,
    StronglySorted lt (map fst (filter f (combine (seq a (List.length l)) l)))
    /\ Forall (fun i => a <= i) (map fst (filter f (combine (seq a (List.length l)) l))).
Proof.
  induction l as [|y l IH]; intros a; simpl.
  - split; constructor.
  - destruct (IH (S a)) as [Hs Hf].
    assert (Hf' : Forall (fun i => a <= i)
              (map fst (filter f (combine (seq (S a) (List.length l)) l)))).
    { eapply Forall_impl; [|exact Hf]. simpl. intros; lia. }
    destruct (f (a, y)); simpl.
    + split.
      * constructor; [assumption|].
        eapply Forall_impl; [|exact Hf]. simpl. intros; lia.
      * constructor; [lia|assumption].
    + split; assumption.
Qed.

(** ** [extract_benefits_data] *)

Lemma all_floats_length col fs :
  all_floats col = Some fs -> List.length fs = List.length col.
Proof.
  revert fs. induction col as [|s col IH]; intros fs; simpl.
  - intros E. injection E as <-. reflexivity.
  - destruct (py_float s); [|discriminate].
    destruct (all_floats col) as [fs'|]; [|discriminate].
    intros E. injection E as <-. simpl. now rewrite (IH fs').
Qed.

Lemma convert_column_length col :
  List.length (convert_column col) = List.length col.
Proof.
  unfold convert_column, astype_float_ignore.
  destruct (all_floats (map remove_commas col)) as [fs|] eqn:H.
  - rewrite length_map. apply all_floats_length in H. now rewrite length_map in H.
  - now rewrite !length_map.
Qed.

(** With columns as long as the frame, [assemble] is row-wise. *)
Lemma assemble_rows meta kept : forall counts amounts vats,
  List.length counts = List.length kept ->
  List.length amounts = List.length kept ->
  List.length vats = List.length kept ->
  map fst (assemble meta kept counts amounts vats) = map fst kept
  /\ map (fun ib => Benefits.Number_of_Claims (snd ib))
         (assemble meta kept counts amounts vats) = counts
  /\ map (fun ib => Benefits.Amount_of_Claims (snd ib))
         (assemble meta kept counts amounts vats) = amounts
  /\ map (fun ib => Benefits.Amount_of_Claims_VAT (snd ib))
         (assemble meta kept counts amounts vats) = vats
  /\ (forall i b, In (i, b) (assemble meta kept counts amounts vats) ->
        exists r n a v, In (i, r) kept /\ b = enrich meta r n a v).
Proof.
  induction kept as [|[i r] kept IH]; intros counts amounts vats Hc Ha Hv.
  - destruct counts, amounts, vats; try discriminate. simpl.
    repeat split; auto. intros ? ? [].
  - destruct counts as [|n counts], amounts as [|a amounts], vats as [|v vats];
      try discriminate.
    simpl in Hc, Ha, Hv.
    destruct (IH counts amounts vats) as (H1 & H2 & H3 & H4 & H5); try lia.
    cbn [assemble map fst snd Benefits.Number_of_Claims
         Benefits.Amount_of_Claims Benefits.Amount_of_Claims_VAT].
    rewrite H1, H2, H3, H4. repeat split; auto.
    intros j b [E | Hin].
    + injection E as <- <-. exists r, n, a, v. split; [now left|reflexivity].
    + destruct (H5 j b Hin) as (r' & n' & a' & v' & Hin' & Hb).
      exists r', n', a', v'. split; [now right|assumption].
Qed.

Lemma normalize_rows meta grid :
  let out := rows (normalize meta grid) in
  let kept := filter_rows grid in
  map fst out = map fst kept
  /\ map (fun ib => Benefits.Number_of_Claims (snd ib)) out
     = convert_column (map (fun ir => Benefits.raw_Number_of_Claims (snd ir)) kept)
  /\ map (fun ib => Benefits.Amount_of_Claims (snd ib)) out
     = convert_column (map (fun ir => Benefits.raw_Amount_of_Claims (snd ir)) kept)
  /\ map (fun ib => Benefits.Amount_of_Claims_VAT (snd ib)) out
     = convert_column (map (fun ir => Benefits.raw_Amount_of_Claims_VAT (snd ir)) kept)
  /\ (forall i b, In (i, b) out ->
        exists r n a v, In (i, r) kept /\ b = enrich meta r n a v).
Proof.
  cbv zeta. unfold normalize. cbn [rows].
  apply assemble_rows; rewrite convert_column_length, length_map; reflexivity.
Qed.

Lemma filter_rows_in grid i r :
  In (i, r) (filter_rows grid) <-> nth_error grid i = Some r /\ keep_row r = true.
Proof.
  unfold filter_rows. rewrite filter_In, enumerate_in. reflexivity.
Qed.

Lemma keep_row_leading r :
  keep_row r = leading_digit (Benefits.raw_Number_of_Claims r).
Proof. apply match_digits_leading. Qed.

(** C1, as the code has it.  A row of the grid is in the output of
    [extract_benefits_data] if and only if its claims-count cell begins with
    a decimal digit (the pattern is matched at the start of the cell, not
    against the whole cell); the rows kept stand in the order of the grid,
    each under its index label, with the label and the note of its grid
    row. *)
Theorem normalize_keeps_leading_digit_rows (meta : Meta) (grid : list RawRow) :
  (forall i r, nth_error grid i = Some r ->
     (In i (map fst (rows (normalize meta grid)))
      <-> leading_digit (Benefits.raw_Number_of_Claims r) = true))
  /\ StronglySorted lt (map fst (rows (normalize meta grid)))
  /\ (forall i b, In (i, b) (rows (normalize meta grid)) ->
        exists r, nth_error grid i = Some r
          /\ Benefits.Benefit_Sama b = Benefits.raw_Benefit_Sama r
          /\ Benefits.Notes b
             = _process_notes (Benefits.Notes_raw r) (Benefits.Notes_raw r)).
Proof.
  destruct (normalize_rows meta grid) as (Hidx & _ & _ & _ & Hrow).
  split; [|split].
  - intros i r Hn. rewrite Hidx, in_map_iff. split.
    + intros [[j r'] [E Hin]]. simpl in E. subst j.
      apply filter_rows_in in Hin as [Hn' Hk].
      rewrite Hn in Hn'. injection Hn' as <-. now rewrite <- keep_row_leading.
    + intros Hl. exists (i, r). split; [reflexivity|].
      apply filter_rows_in. now rewrite keep_row_leading.
  - rewrite Hidx. unfold filter_rows, enumerate.
    apply filter_enumerate_sorted.
  - intros i b Hin. destruct (Hrow i b Hin) as (r & n & a & v & Hk & ->).
    apply filter_rows_in in Hk as [Hn _]. exists r. repeat split; auto.
Qed.

(** C1, as stated: a row whose claims-count cell is ["12abc"] is kept,
    though the cell as a whole is not numeric. *)
Lemma kept_row_not_fully_numeric :
  In 0 (map fst (rows (normalize default_meta
          [Benefits.raw (T "Dental") (T "12abc") (T "10") (T "1") (T "")])))
  /\ fully_numeric (T "12abc") = false.
Proof. split; [vm_compute; auto|reflexivity]. Qed.

Lemma all_floats_some col :
  Forall (fun s => py_float s <> None) col ->
  exists fs, all_floats col = Some fs
             /\ map CFloat fs
                = map (fun s => match py_float s with
                                | Some f => CFloat f
                                | None => CStr s
                                end) col.
Proof.
  induction 1 as [|s col Hs _ IH]; simpl.
  - now exists [].
  - destruct IH as (fs & -> & E).
    destruct (py_float s) as [f|]; [|congruence].
    exists (f :: fs). simpl. now rewrite E.
Qed.

Lemma all_floats_none col :
  Exists (fun s => py_float s = None) col -> all_floats col = None.
Proof.
  induction 1 as [s col Hs | s col _ IH]; simpl.
  - now rewrite Hs.
  - rewrite IH. now destruct (py_float s).
Qed.

(** A column is cast as a whole: to floats when every cell converts once its
    commas are removed, and otherwise left as the texts without commas. *)
Lemma convert_column_cases (col : list str) :
  (Forall (fun s => py_float (remove_commas s) <> None) col ->
   convert_column col = map cellwise col)
  /\ (Exists (fun s => py_float (remove_commas s) = None) col ->
      convert_column col = map (fun s => CStr (remove_commas s)) col).
Proof.
  unfold convert_column, astype_float_ignore. split; intros H.
  - destruct (@all_floats_some (map remove_commas col)) as (fs & -> & E).
    + rewrite Forall_map. exact H.
    + rewrite E, map_map. apply map_ext_in. intros x Hx.
      rewrite Forall_forall in H. specialize (H x Hx). unfold cellwise.
      destruct (py_float (remove_commas x)); congruence.
  - rewrite all_floats_none; [now rewrite map_map|].
    rewrite Exists_map. exact H.
Qed.

(** C3, as the code has it.  Every row kept by the filter is in the output.
    Each of the three numeric columns is converted as one column: the commas
    are removed from every cell; if every cell of the column then converts
    to a float the column holds those floats, and if one cell does not, every
    cell of that column is left as its text without commas. *)
Theorem numeric_columns_cast_as_a_whole (meta : Meta) (grid : list RawRow) :
  let out := rows (normalize meta grid) in
  let kept := map snd (filter_rows grid) in
  List.length out = List.length kept
  /\ map (fun ib => Benefits.Number_of_Claims (snd ib)) out
     = convert_column (map Benefits.raw_Number_of_Claims kept)
  /\ map (fun ib => Benefits.Amount_of_Claims (snd ib)) out
     = convert_column (map Benefits.raw_Amount_of_Claims kept)
  /\ map (fun ib => Benefits.Amount_of_Claims_VAT (snd ib)) out
     = convert_column (map Benefits.raw_Amount_of_Claims_VAT kept)
  /\ (forall col : list str,
        (Forall (fun s => py_float (remove_commas s) <> None) col ->
         convert_column col = map cellwise col)
        /\ (Exists (fun s => py_float (remove_commas s) = None) col ->
            convert_column col = map (fun s => CStr (remove_commas s)) col)).
Proof.
  cbv zeta.
  destruct (normalize_rows meta grid) as (Hidx & Hn & Ha & Hv & _).
  rewrite !map_map. rewrite Hn, Ha, Hv. repeat split.
  - apply (f_equal (@List.length nat)) in Hidx.
    now rewrite !length_map in *.
  - apply convert_column_cases.
  - apply convert_column_cases.
Qed.

(** C3, as stated: next to a cell that does not convert (["n/a"]), the cell
    ["10"] of the same column stays text although it converts on its own;
    and the cell ["1,5x"] comes out without its comma, not unchanged. *)
Lemma cell_not_converted_on_its_own :
  map (fun ib => Benefits.Amount_of_Claims (snd ib))
      (rows (normalize default_meta
         [Benefits.raw (T "Dental") (T "1") (T "10") (T "1") (T "");
          Benefits.raw (T "Optical") (T "2") (T "n/a") (T "1,5x") (T "")]))
  = [CStr (T "10"); CStr (T "n/a")]
  /\ cellwise (T "10") = CFloat (FFin (10 # 1))
  /\ map (fun ib => Benefits.Amount_of_Claims_VAT (snd ib))
      (rows (normalize default_meta
         [Benefits.raw (T "Dental") (T "1") (T "10") (T "1") (T "");
          Benefits.raw (T "Optical") (T "2") (T "n/a") (T "1,5x") (T "")]))
  = [CStr (T "1"); CStr (T "15x")]
  /\ cellwise (T "1,5x") = CStr (T "1,5x").
Proof. repeat split; vm_compute; reflexivity. Qed.

(** ** [extract_claims_data] *)

Lemma header_label_in (line l : str) :
  header_label line = Some l -> In l section_labels.
Proof.
  unfold header_label, section_labels.
  destruct (is_some (re_search true pat_two_years_prior line)).
  { intros E. injection E as <-. simpl. auto. }
  destruct (is_some (re_search true pat_prior_policy_year line)).
  { intros E. injection E as <-. simpl. auto. }
  destruct (is_some (re_search true pat_last_policy_year line)).
  { intros E. injection E as <-. simpl. auto. }
  discriminate.
Qed.

Lemma header_transition_ok cs line :
  section_ok cs -> section_ok (header_transition cs line).
Proof.
  intros H. unfold header_transition.
  destruct (header_label line) as [l|] eqn:Hl; [|assumption].
  right. exists l. split; [|reflexivity]. now apply header_label_in with line.
Qed.

Lemma truthy_section cs :
  section_ok cs -> truthy cs = true <-> cs <> None.
Proof.
  intros [-> | (l & Hl & ->)]; simpl.
  - split; congruence.
  - simpl in Hl. destruct Hl as [<- | [<- | [<- | []]]]; simpl; split; congruence.
Qed.

Lemma emit_fst meta cs raw :
  fst (emit meta cs raw) = header_transition cs (strip raw).
Proof.
  unfold emit.
  destruct (negb (truthy (header_transition cs (strip raw)))); [reflexivity|].
  destruct (is_some (re_match false pat_six_digits (strip raw))); reflexivity.
Qed.

Lemma emit_snd meta cs raw :
  snd (emit meta cs raw) =
  if data_line (header_transition cs (strip raw)) (strip raw)
  then match header_transition cs (strip raw) with
       | Some sec => parse_data_line meta sec (strip raw)
       | None => []
       end
  else [].
Proof.
  unfold emit, data_line.
  destruct (truthy (header_transition cs (strip raw))); simpl; [|reflexivity].
  destruct (is_some (re_match false pat_six_digits (strip raw))); reflexivity.
Qed.

Lemma loop_body_eq meta cs acc raw :
  loop_body meta (cs, acc) raw
  = (header_transition cs (strip raw), acc ++ snd (emit meta cs raw)).
Proof.
  unfold loop_body. simpl. rewrite <- (emit_fst meta cs raw).
  now destruct (emit meta cs raw).
Qed.

(** The records already in [claims] are never touched. *)
Lemma run_lines_acc meta lines : forall cs acc,
  run_lines meta lines (cs, acc)
  = (fst (run_lines meta lines (cs, [])),
     acc ++ snd (run_lines meta lines (cs, []))).
Proof.
  induction lines as [|raw lines IH]; intros cs acc; simpl.
  - now rewrite app_nil_r.
  - unfold run_lines in *. simpl. rewrite !loop_body_eq. simpl.
    rewrite IH. rewrite (IH _ (snd (emit meta cs raw))). simpl.
    now rewrite app_assoc.
Qed.

Lemma run_lines_cons meta raw rest cs acc :
  run_lines meta (raw :: rest) (cs, acc)
  = (fst (run_lines meta rest (header_transition cs (strip raw), [])),
     acc ++ snd (emit meta cs raw)
         ++ snd (run_lines meta rest (header_transition cs (strip raw), []))).
Proof.
  unfold run_lines. simpl. rewrite loop_body_eq.
  fold (run_lines meta rest (header_transition cs (strip raw), acc ++ snd (emit meta cs raw))).
  rewrite run_lines_acc. now rewrite app_assoc.
Qed.

Lemma run_lines_app meta pre post st :
  run_lines meta (pre ++ post) st = run_lines meta post (run_lines meta pre st).
Proof. unfold run_lines. apply fold_left_app. Qed.

(** The section in force after some lines is the label of the latest header
    among them. *)
Lemma run_lines_section meta lines : forall cs acc,
  fst (run_lines meta lines (cs, acc)) = last_header_from cs lines.
Proof.
  induction lines as [|raw lines IH]; intros cs acc; [reflexivity|].
  rewrite run_lines_cons. cbn [fst last_header_from].
  rewrite IH. reflexivity.
Qed.

Lemma last_header_from_none lines : forall cs,
  Forall (fun raw => header_label (strip raw) = None) lines ->
  last_header_from cs lines = cs.
Proof.
  induction lines as [|raw lines IH]; intros cs H; [reflexivity|].
  inversion H as [|? ? Hraw Hrest]; subst. simpl. rewrite Hraw. now apply IH.
Qed.

(** Before any header nothing is recorded. *)
Lemma run_lines_before_header meta lines :
  Forall (fun raw => header_label (strip raw) = None) lines ->
  run_lines meta lines (None, []) = (None, []).
Proof.
  induction 1 as [|raw lines Hraw _ IH]; [reflexivity|].
  rewrite run_lines_cons.
  assert (Ht : header_transition None (strip raw) = None).
  { unfold header_transition. now rewrite Hraw. }
  rewrite emit_snd, Ht, IH. reflexivity.
Qed.

Lemma data_line_spec cs line :
  section_ok cs ->
  data_line cs line = true <-> cs <> None /\ six_leading_digits line = true.
Proof.
  intros Hok. unfold data_line.
  rewrite andb_true_iff, match_six_digits, (truthy_section Hok). reflexivity.
Qed.

(** C4, as the code has it.  After the header test of a line, the line is
    read as a data line if and only if a section is in force and the stripped
    line begins with six decimal digits (its first token may go on after
    them); only such a line can add a record, and it is parsed under the
    section in force after its own header test.  Lines before the first
    header add nothing to the result, whatever their shape.  A line may set
    the section and be parsed as a data line in the same turn. *)
Theorem data_line_iff_section_and_six_digits (meta : Meta) :
  (forall cs raw, section_ok cs ->
     let line := strip raw in
     let cs' := header_transition cs line in
     (data_line cs' line = true <-> cs' <> None /\ six_leading_digits line = true)
     /\ emit meta cs raw
        = (cs', if data_line cs' line
                then match cs' with
                     | Some sec => parse_data_line meta sec line
                     | None => []
                     end
                else []))
  /\ (forall pre post,
        Forall (fun raw => header_label (strip raw) = None) pre ->
        parse_lines meta pre = [] /\ parse_lines meta (pre ++ post) = parse_lines meta post)
  /\ (exists raw r,
        header_label (strip raw) <> None
        /\ snd (emit meta None raw) = [r]).
Proof.
  split; [|split].
  - intros cs raw Hok. cbv zeta. split.
    + apply data_line_spec. now apply header_transition_ok.
    + rewrite (surjective_pairing (emit meta cs raw)), emit_fst, emit_snd.
      reflexivity.
  - intros pre post Hpre. unfold parse_lines.
    rewrite run_lines_app, (run_lines_before_header meta Hpre). auto.
  - exists (T "123456 1 2 3 4 last policy year").
    eexists. split; [vm_compute; discriminate|].
    vm_compute. reflexivity.
Qed.

(** C4, as stated: under a section, the line ["1234567 1 2 3.0 4.0"] is
    parsed as a data line and gives a record, though its first token has
    seven digits. *)
Lemma seven_digit_token_is_data_line :
  first_token_six_digits (strip (T "1234567 1 2 3.0 4.0")) = false
  /\ data_line
       (header_transition (Some (T "Last Policy Year")) (strip (T "1234567 1 2 3.0 4.0")))
       (strip (T "1234567 1 2 3.0 4.0")) = true
  /\ parse_lines default_meta [T "Last Policy Year"; T "1234567 1 2 3.0 4.0"]
     = [Claims.mk (T "1234567") 1 2 (FFin (3 # 1)) (FFin (4 # 1))
          (T "Last Policy Year") (T "2023-02-16") (T "B") 1000000].
Proof. repeat split; vm_compute; reflexivity. Qed.

Lemma build_record_ok meta sec (parts : list str) lives count paid vat :
  py_int (nth 1 parts []) = Some lives ->
  py_int (nth 2 parts []) = Some count ->
  py_float (remove_commas (nth 3 parts [])) = Some paid ->
  py_float (remove_commas (nth 4 parts [])) = Some vat ->
  build_record meta sec parts
  = Ok (Claims.mk (nth 0 parts []) lives count paid vat sec
          (end_date meta) (class meta) (overall_limit meta)).
Proof.
  intros H1 H2 H3 H4. unfold build_record. now rewrite H1, H2, H3, H4.
Qed.

Lemma build_record_fail meta sec (parts : list str) :
  py_int (nth 1 parts []) = None
  \/ py_int (nth 2 parts []) = None
  \/ py_float (remove_commas (nth 3 parts [])) = None
  \/ py_float (remove_commas (nth 4 parts [])) = None ->
  build_record meta sec parts = ValueError.
Proof.
  unfold build_record. intros [H | [H | [H | H]]].
  - now rewrite H.
  - rewrite H. now destruct (py_int (nth 1 parts [])).
  - rewrite H. now destruct (py_int (nth 1 parts [])), (py_int (nth 2 parts [])).
  - rewrite H.
    now destruct (py_int (nth 1 parts [])), (py_int (nth 2 parts [])),
      (py_float (remove_commas (nth 3 parts []))).
Qed.

Lemma parse_data_line_short meta sec line :
  List.length (str_split line) < 5 -> parse_data_line meta sec line = [].
Proof.
  intros H. unfold parse_data_line.
  replace (5 <=? List.length (str_split line)) with false; [reflexivity|].
  symmetry. apply Nat.leb_gt. exact H.
Qed.

Lemma parse_data_line_long meta sec line :
  5 <= List.length (str_split line) ->
  parse_data_line meta sec line
  = match build_record meta sec (str_split line) with
    | Ok r => [r]
    | ValueError => []
    end.
Proof.
  intros H. unfold parse_data_line.
  replace (5 <=? List.length (str_split line)) with true
    by (symmetry; now apply Nat.leb_le).
  now rewrite empty_amount_false.
Qed.

(** C5.  On a line read as a data line: when the line has fewer than five
    tokens, or token 1 or 2 is not an integer, or token 3 or 4 without its
    commas is not a float, the line adds no record; otherwise it adds exactly
    one record, with all its fields.  In both cases the records read before
    are kept and the loop goes on with the lines that follow. *)
Theorem data_line_all_or_nothing (meta : Meta) (cs : option str) (raw : str)
  (acc : list ClaimRecord) (rest : list str) :
  section_ok cs ->
  data_line (header_transition cs (strip raw)) (strip raw) = true ->
  let parts := str_split (strip raw) in
  let new := snd (emit meta cs raw) in
  (List.length parts < 5
   \/ py_int (nth 1 parts []) = None
   \/ py_int (nth 2 parts []) = None
   \/ py_float (remove_commas (nth 3 parts [])) = None
   \/ py_float (remove_commas (nth 4 parts [])) = None ->
   new = [])
  /\ (forall lives count paid vat,
        5 <= List.length parts ->
        py_int (nth 1 parts []) = Some lives ->
        py_int (nth 2 parts []) = Some count ->
        py_float (remove_commas (nth 3 parts [])) = Some paid ->
        py_float (remove_commas (nth 4 parts [])) = Some vat ->
        exists sec,
          header_transition cs (strip raw) = Some sec
          /\ new = [Claims.mk (nth 0 parts []) lives count paid vat sec
                      (end_date meta) (class meta) (overall_limit meta)])
  /\ snd (run_lines meta (raw :: rest) (cs, acc))
     = acc ++ new
           ++ snd (run_lines meta rest (header_transition cs (strip raw), [])).
Proof.
  intros Hok Hdata. cbv zeta. rewrite emit_snd, Hdata.
  assert (Hsec : exists sec, header_transition cs (strip raw) = Some sec).
  { apply data_line_spec in Hdata as [Hne _]; [|now apply header_transition_ok].
    destruct (header_transition cs (strip raw)) as [sec|]; [now exists sec|congruence]. }
  destruct Hsec as [sec Hsec]. rewrite Hsec.
  split; [|split].
  - intros [Hlen | Hfail].
    + now apply parse_data_line_short.
    + destruct (Nat.lt_ge_cases (List.length (str_split (strip raw))) 5) as [Hlt | Hge].
      * now apply parse_data_line_short.
      * rewrite parse_data_line_long by assumption.
        now rewrite build_record_fail.
  - intros lives count paid vat Hge H1 H2 H3 H4. exists sec. split; [reflexivity|].
    rewrite parse_data_line_long by assumption.
    now rewrite (build_record_ok meta sec _ H1 H2 H3 H4).
  - rewrite run_lines_cons. cbn [snd]. rewrite emit_snd, Hdata, Hsec. reflexivity.
Qed.

Lemma data_line_all_or_nothing_witness :
  section_ok (Some (T "Last Policy Year"))
  /\ data_line
       (header_transition (Some (T "Last Policy Year"))
          (strip (T "123456 100 10 1,000.00 50.00")))
       (strip (T "123456 100 10 1,000.00 50.00")) = true
  /\ (exists sec,
        header_transition (Some (T "Last Policy Year"))
          (strip (T "123456 100 10 1,000.00 50.00")) = Some sec
        /\ snd (emit default_meta (Some (T "Last Policy Year"))
                  (T "123456 100 10 1,000.00 50.00"))
           = [Claims.mk (T "123456") 100 10 (FFin (1000 # 1)) (FFin (50 # 1)) sec
                (T "2023-02-16") (T "B") 1000000])
  /\ snd (run_lines default_meta
            [T "123456 100 10 1,000.00 50.00"; T "123457 1 x 2 3"]
            (Some (T "Last Policy Year"), []))
     = [] ++ snd (emit default_meta (Some (T "Last Policy Year"))
                    (T "123456 100 10 1,000.00 50.00"))
          ++ snd (run_lines default_meta [T "123457 1 x 2 3"]
                    (header_transition (Some (T "Last Policy Year"))
                       (strip (T "123456 100 10 1,000.00 50.00")), [])).
Proof.
  assert (Hok : section_ok (Some (T "Last Policy Year"))).
  { right. exists (T "Last Policy Year"). split; [simpl; auto|reflexivity]. }
  assert (Hd : data_line
       (header_transition (Some (T "Last Policy Year"))
          (strip (T "123456 100 10 1,000.00 50.00")))
       (strip (T "123456 100 10 1,000.00 50.00")) = true) by (vm_compute; reflexivity).
  split; [exact Hok|]. split; [exact Hd|].
  destruct (@data_line_all_or_nothing default_meta _ _
              [] [T "123457 1 x 2 3"] Hok Hd) as (_ & Hone & Hrun).
  split; [|exact Hrun].
  apply (Hone 100%Z 10%Z (FFin (1000 # 1)) (FFin (50 # 1)));
    vm_compute; try reflexivity; lia.
Defined.

(** The records a line adds carry the section in force after its header
    test. *)
Lemma emit_policy_year meta cs raw r :
  In r (snd (emit meta cs raw)) ->
  header_transition cs (strip raw) = Some (Claims.Policy_Year r).
Proof.
  rewrite emit_snd.
  destruct (data_line (header_transition cs (strip raw)) (strip raw)); [|intros []].
  destruct (header_transition cs (strip raw)) as [sec|]; [|intros []].
  unfold parse_data_line.
  destruct (5 <=? List.length (str_split (strip raw))); [|intros []].
  destruct (empty_amount (str_split (strip raw))); [intros []|].
  unfold build_record.
  destruct (py_int (nth 1 (str_split (strip raw)) [])); [|intros []].
  destruct (py_int (nth 2 (str_split (strip raw)) [])); [|intros []].
  destruct (py_float (remove_commas (nth 3 (str_split (strip raw)) []))); [|intros []].
  destruct (py_float (remove_commas (nth 4 (str_split (strip raw)) []))); [|intros []].
  simpl. intros [<- | []]. reflexivity.
Qed.

Lemma run_indexed_erase meta lines : forall i cs,
  map snd (run_indexed meta i cs lines) = snd (run_lines meta lines (cs, [])).
Proof.
  induction lines as [|raw lines IH]; intros i cs; [reflexivity|].
  rewrite run_lines_cons. cbn [run_indexed snd app].
  rewrite (surjective_pairing (emit meta cs raw)), emit_fst.
  rewrite map_app, map_map, IH. cbn [snd]. now rewrite map_id.
Qed.

Lemma last_header_from_firstn_S lines : forall cs n,
  last_header_from cs (firstn (S (S n)) lines)
  = match lines with
    | [] => cs
    | raw :: lines' =>
        last_header_from (header_transition cs (strip raw)) (firstn (S n) lines')
    end.
Proof. intros cs n. destruct lines; reflexivity. Qed.

Lemma run_indexed_label meta lines : forall i0 cs i r,
  In (i, r) (run_indexed meta i0 cs lines) ->
  i0 <= i < i0 + List.length lines
  /\ last_header_from cs (firstn (S (i - i0)) lines) = Some (Claims.Policy_Year r).
Proof.
  induction lines as [|raw lines IH]; intros i0 cs i r; [intros []|].
  cbn [run_indexed].
  rewrite (surjective_pairing (emit meta cs raw)), emit_fst.
  rewrite in_app_iff, in_map_iff. intros [(r' & E & Hin) | Hin].
  - injection E as <- <-. rewrite Nat.sub_diag. simpl. split; [lia|].
    apply emit_policy_year in Hin. exact Hin.
  - apply IH in Hin as [Hrange Hlab]. split; [simpl; lia|].
    replace (i - i0) with (S (i - S i0)) by lia.
    rewrite last_header_from_firstn_S. exact Hlab.
Qed.

(** [last_header] spelled out: the label is that of a header line after which
    no header line comes. *)
Lemma last_header_from_some lines : forall acc l,
  last_header_from acc lines = Some l ->
  (acc = Some l /\ Forall (fun raw => header_label (strip raw) = None) lines)
  \/ (exists pre raw post,
        lines = pre ++ raw :: post
        /\ header_label (strip raw) = Some l
        /\ Forall (fun raw' => header_label (strip raw') = None) post).
Proof.
  induction lines as [|raw lines IH]; intros acc l H.
  - left. split; [exact H|constructor].
  - simpl in H. apply IH in H as [[Hacc Hnone] | (pre & raw' & post & -> & Hl & Hnone)].
    + destruct (header_label (strip raw)) as [l'|] eqn:Hraw.
      * injection Hacc as ->. right. now exists [], raw, lines.
      * left. split; [exact Hacc|now constructor].
    + right. now exists (raw :: pre), raw', post.
Qed.

(** C6.  After any lines the section in force is the label of the latest
    header line among them, so a label stays until the next header line or
    the end of the input.  Every record carries the label of the latest
    header line among the lines up to and including the line it was read
    from: that line is a header line with the record's label, no header line
    stands between it and the record's line, and the lines that follow the
    record's line play no part. *)
Theorem policy_year_is_latest_header (meta : Meta) (lines : list str) :
  fst (run_lines meta lines (None, [])) = last_header lines
  /\ (forall cs raw, header_label (strip raw) = None -> fst (emit meta cs raw) = cs)
  /\ map snd (parse_lines_indexed meta lines) = parse_lines meta lines
  /\ (forall i r, In (i, r) (parse_lines_indexed meta lines) ->
        i < List.length lines
        /\ last_header (firstn (S i) lines) = Some (Claims.Policy_Year r)
        /\ exists pre raw post,
             firstn (S i) lines = pre ++ raw :: post
             /\ header_label (strip raw) = Some (Claims.Policy_Year r)
             /\ Forall (fun raw' => header_label (strip raw') = None) post).
Proof.
  split; [|split; [|split]].
  - apply run_lines_section.
  - intros cs raw H. rewrite emit_fst. unfold header_transition. now rewrite H.
  - apply run_indexed_erase.
  - intros i r Hin. apply run_indexed_label in Hin as [Hrange Hlab].
    rewrite Nat.sub_0_r in Hlab. split; [lia|]. split; [exact Hlab|].
    apply last_header_from_some in Hlab as [[Hacc _] | H]; [discriminate|exact H].
Qed.

(** C8.  The two lines ["Last Policy Year"] and
    ["123456 100 10 1,000.00 50.00"], with class ["B"], overall limit
    1000000 and end date ["2023-02-16"] in the metadata, give exactly one
    record, with the nine fields of the scenario. *)
Theorem end_to_end_scenario (group expiry deduct : option str) :
  parse_lines (mk_meta group 1000000 expiry (T "2023-02-16") (T "B") deduct)
    [T "Last Policy Year"; T "123456 100 10 1,000.00 50.00"]
  = [ {| Claims.Monthly_Claims := T "123456";
         Claims.Number_of_Insured_Lives := 100;
         Claims.Number_of_Claims := 10;
         Claims.Amount_of_Paid_Claims := FFin (1000 # 1);
         Claims.Amount_of_Paid_Claims_VAT := FFin (50 # 1);
         Claims.Policy_Year := T "Last Policy Year";
         Claims.End_Date := T "2023-02-16";
         Claims.Class := T "B";
         Claims.Overall_Limit := 1000000 |} ].
Proof. vm_compute. reflexivity. Qed.

(** ** What a group captures *)

Lemma quant_ok_min q n : quant_ok q n -> min_quant q <= n.
Proof. destruct q; simpl; lia. Qed.

Lemma allin_cons ic n re w : allin ic re w = true -> allin ic (n :: re) w = true.
Proof.
  unfold allin. rewrite !forallb_forall. intros H c Hc. simpl.
  rewrite (H c Hc). apply orb_true_r.
Qed.

Lemma allin_head ic cs q re w :
  forallb (cset_match ic cs) w = true -> allin ic (Atom cs q :: re) w = true.
Proof.
  unfold allin. rewrite !forallb_forall. intros H c Hc. simpl. now rewrite (H c Hc).
Qed.

Lemma allin_app ic re u v :
  allin ic re u = true -> allin ic re v = true -> allin ic re (u ++ v) = true.
Proof. unfold allin. rewrite forallb_app. now intros -> ->. Qed.

(** A plain prefix of a pattern consumes a prefix of the text and leaves the
    group spans alone. *)
Lemma path_plain_prefix ic r1 r : forall g pos s res,
  plain r1 = true ->
  path ic (r1 ++ r) g pos s res ->
  exists u v,
    s = u ++ v /\ allin ic r1 u = true /\ min_len r1 <= List.length u
    /\ (fixed r1 = true -> List.length u = min_len r1)
    /\ path ic r g (pos + List.length u) v res.
Proof.
  induction r1 as [|n r1 IH]; intros g pos s res Hpl Hp.
  - exists [], s. simpl. rewrite Nat.add_0_r. repeat split; auto.
  - simpl in Hpl. apply andb_true_iff in Hpl as [Hn Hpl].
    destruct n as [cs q| | |]; try discriminate; simpl in Hp.
    + destruct Hp as (u0 & v0 & -> & Hu0 & Hq & Hp).
      destruct (IH _ _ _ _ Hpl Hp) as (u & v & -> & Hall & Hmin & Hfix & Hp').
      exists (u0 ++ u), v. rewrite length_app, <- app_assoc.
      split; [reflexivity|]. split; [|split; [|split]].
      * apply allin_app; [now apply allin_head|now apply allin_cons].
      * simpl. apply quant_ok_min in Hq. lia.
      * simpl. intros Hf. apply andb_true_iff in Hf as [Hq' Hf].
        rewrite (Hfix Hf). destruct q; simpl in *; try discriminate; lia.
      * now rewrite Nat.add_assoc.
    + destruct Hp as [Hpos Hp].
      destruct (IH _ _ _ _ Hpl Hp) as (u & v & -> & Hall & Hmin & Hfix & Hp').
      exists u, v. repeat split; auto. simpl. discriminate.
Qed.

(** In a pattern with one group, the group spans a piece of the text that
    the inside of the group accepts. *)
Lemma path_capture ic r1 body r2 g pos s e g' :
  plain r1 = true -> plain body = true -> plain r2 = true ->
  path ic (r1 ++ grp body ++ r2) g pos s (e, g') ->
  exists u1 ub rest,
    s = u1 ++ ub ++ rest
    /\ g' = (Some (pos + List.length u1),
             Some (pos + List.length u1 + List.length ub))
    /\ allin ic body ub = true
    /\ min_len body <= List.length ub
    /\ (fixed body = true -> List.length ub = min_len body).
Proof.
  intros H1 Hb H2 Hp.
  apply path_plain_prefix in Hp as (u1 & v1 & -> & _ & _ & _ & Hp); [|assumption].
  unfold grp in Hp. cbn [app path] in Hp. rewrite <- app_assoc in Hp.
  apply path_plain_prefix in Hp as (ub & v2 & -> & Hall & Hmin & Hfix & Hp);
    [|assumption].
  cbn [app path fst snd] in Hp.
  rewrite <- (app_nil_r r2) in Hp.
  apply path_plain_prefix in Hp as (u2 & v3 & -> & _ & _ & _ & Hp); [|assumption].
  simpl in Hp. injection Hp as _ ->.
  exists u1, ub, (u2 ++ v3). repeat split; auto.
Qed.

Lemma slice_middle (pre u rest : str) :
  slice (pre ++ u ++ rest) (List.length pre) (List.length pre + List.length u) = u.
Proof.
  unfold slice. rewrite skipn_app, skipn_all, Nat.sub_diag. simpl.
  replace (List.length pre + List.length u - List.length pre) with (List.length u) by lia.
  rewrite firstn_app, firstn_all, Nat.sub_diag. simpl. apply app_nil_r.
Qed.

(** [m.group(1)] after [re.search]: a piece of the subject accepted by the
    inside of the group. *)
Lemma search_group ic r1 body r2 s m :
  plain r1 = true -> plain body = true -> plain r2 = true ->
  re_search ic (r1 ++ grp body ++ r2) s = Some m ->
  allin ic body (group1 s m) = true
  /\ min_len body <= List.length (group1 s m)
  /\ (fixed body = true -> List.length (group1 s m) = min_len body)
  /\ occurs (group1 s m) s.
Proof.
  intros H1 Hb H2 Hs. unfold re_search in Hs.
  apply search_from_sound in Hs as (pre & rest & -> & Hstart & Hp).
  apply path_capture in Hp as (u1 & ub & rest' & -> & Hg & Hall & Hmin & Hfix);
    try assumption.
  unfold group1. rewrite Hg, Hstart. simpl.
  replace (pre ++ u1 ++ ub ++ rest') with ((pre ++ u1) ++ ub ++ rest')
    by now rewrite <- app_assoc.
  replace (List.length pre + List.length u1) with (List.length (pre ++ u1))
    by now rewrite length_app.
  rewrite slice_middle. repeat split; auto. now exists (pre ++ u1), rest'.
Qed.

(** ** [_process_notes] *)

Lemma starts_with_spec p : forall s,
  starts_with p s = true <-> exists rest, s = p ++ rest.
Proof.
  induction p as [|a p IH]; intros s; simpl.
  - split; [now exists s|reflexivity].
  - destruct s as [|b s].
    + split; [discriminate|]. intros [rest E]. discriminate.
    + rewrite andb_true_iff, Ascii.eqb_eq, IH. split.
      * intros [-> [rest ->]]. now exists rest.
      * intros [rest E]. injection E as -> ->. split; [reflexivity|now exists rest].
Qed.

Lemma contains_occurs sub : forall s,
  contains sub s = true <-> occurs sub s.
Proof.
  unfold occurs. induction s as [|b s IH].
  - simpl. rewrite orb_false_r, starts_with_spec. split.
    + intros [rest E]. now exists [], rest.
    + intros (pre & post & E). destruct pre; [now exists post|discriminate].
  - cbn [contains]. rewrite orb_true_iff, starts_with_spec, IH. split.
    + intros [[rest E] | (pre & post & E)].
      * now exists [], rest.
      * exists (b :: pre), post. simpl. now rewrite E.
    + intros (pre & post & E). destruct pre as [|c pre].
      * left. now exists post.
      * right. injection E as _ ->. now exists pre, post.
Qed.

Lemma lower_app a b : lower (a ++ b) = lower a ++ lower b.
Proof. apply map_app. Qed.

Lemma allin_digits ic w :
  allin ic (dg Plus) w = forallb isdecimal w.
Proof.
  unfold allin, dg. induction w as [|c w IH]; [reflexivity|].
  simpl in *. rewrite IH, cset_digit, orb_false_r. reflexivity.
Qed.

(** Each of the three note patterns captures a non-empty run of digits. *)
Lemma note_capture_digits pat s m :
  In pat note_patterns ->
  re_search false pat s = Some m ->
  group1 s m <> [] /\ forallb isdecimal (group1 s m) = true.
Proof.
  assert (Hgen : forall r1 r2,
    plain r1 = true -> plain r2 = true ->
    re_search false (r1 ++ grp (dg Plus) ++ r2) s = Some m ->
    group1 s m <> [] /\ forallb isdecimal (group1 s m) = true).
  { intros r1 r2 H1 H2 Hs.
    destruct (search_group false r1 (dg Plus) r2 s H1 eq_refl H2 Hs) as (Hall & Hmin & _ & _).
    rewrite allin_digits in Hall. split; [|assumption].
    simpl in Hmin. destruct (group1 s m); simpl in *; [lia|discriminate]. }
  intros [<- | [<- | [<- | []]]].
  - apply (Hgen (lit "paid" ++ sp Plus) (sp Star ++ lit "%")); reflexivity.
  - apply (Hgen [] (sp Star ++ lit "%" ++ sp Star ++ lit "up" ++ sp Star ++ lit "to"));
      reflexivity.
  - apply (Hgen [] (sp Star ++ lit "%")); reflexivity.
Qed.

(** Wherever ["paid 50%"] stands, the first pattern matches there. *)
Lemma paid_50_attempt pos rest :
  attempt false pat_paid_pct pos (T "paid 50%" ++ rest) <> None.
Proof. vm_compute. discriminate. Qed.

Lemma paid_50_found txt full_line :
  occurs (T "paid 50% up to") txt ->
  re_search false pat_paid_pct (combine_notes txt full_line) <> None.
Proof.
  intros (pre & post & ->). unfold combine_notes, re_search.
  rewrite <- !app_assoc, lower_app.
  change (T "paid 50% up to") with (T "paid 50%" ++ T " up to").
  rewrite <- app_assoc, lower_app.
  change (lower (T "paid 50%")) with (T "paid 50%").
  apply search_from_complete. apply paid_50_attempt.
Qed.

Lemma process_notes_unfold txt full_line :
  _process_notes txt full_line =
  match re_search false pat_paid_pct (combine_notes txt full_line) with
  | Some m => group1 (combine_notes txt full_line) m ++ T "%"
  | None =>
      match re_search false pat_pct_up_to (combine_notes txt full_line) with
      | Some m => group1 (combine_notes txt full_line) m ++ T "%"
      | None =>
          match re_search false pat_pct (combine_notes txt full_line) with
          | Some m => group1 (combine_notes txt full_line) m ++ T "%"
          | None =>
              if contains (T "cesarean") (combine_notes txt full_line)
              then T "yes" else T "No info"
          end
      end
  end.
Proof.
  unfold _process_notes, note_patterns. cbn [probe].
  destruct (re_search false pat_paid_pct (combine_notes txt full_line));
    [reflexivity|].
  destruct (re_search false pat_pct_up_to (combine_notes txt full_line));
    [reflexivity|].
  destruct (re_search false pat_pct (combine_notes txt full_line)); reflexivity.
Qed.


(** ** [validate_dataframes] *)

Lemma has_column_in cols col : has_column cols col = true <-> In col cols.
Proof.
  unfold has_column. rewrite existsb_exists. split.
  - intros (x & Hx & E). apply str_eqb_eq in E. now subst.
  - intros H. exists col. split; [assumption|apply str_eqb_refl].
Qed.

Lemma check_columns_spec prefix cols req : forall ok log,
  check_columns prefix cols req (ok, log)
  = (ok && forallb (has_column cols) req,
     log ++ missing_diagnostics prefix cols req).
Proof.
  unfold check_columns, missing_diagnostics.
  induction req as [|col req IH]; intros ok log; simpl.
  - now rewrite andb_true_r, app_nil_r.
  - destruct (has_column cols col); simpl; rewrite IH; simpl.
    + reflexivity.
    + now rewrite andb_false_r, <- app_assoc.
Qed.

Lemma missing_diagnostics_nodup prefix cols req :
  NoDup req -> NoDup (missing_diagnostics prefix cols req).
Proof.
  intros H. unfold missing_diagnostics. apply Injective_map_NoDup_in.
  - intros a b _ _ E. now apply app_inv_head in E.
  - now apply NoDup_filter.
Qed.

Lemma required_cols_nodup : NoDup req_claims /\ NoDup req_ben.
Proof.
  split; unfold req_claims, req_ben, required_cols, benefit_cols;
    repeat (constructor; [simpl; intuition discriminate|]); constructor.
Qed.

(** C9.  [validate_dataframes] is a total function to a truth value and a
    log.  The value is true if and only if every one of the nine required
    claims columns is a column of the claims frame and every one of the nine
    required benefits columns is a column of the benefits frame.  The log
    holds one message for each missing column, naming it, first the claims
    columns and then the benefits columns, each list in the order of the
    requirement; no message comes twice, and the claims messages do not
    depend on the benefits frame. *)
Theorem validate_reports_every_missing_column
  (A B : Type) (claims : DataFrame A) (ben : DataFrame B) :
  List.length req_claims = 9 /\ List.length req_ben = 9
  /\ (fst (validate_dataframes claims ben) = true
      <-> (forall col, In col req_claims -> In col (columns claims))
          /\ (forall col, In col req_ben -> In col (columns ben)))
  /\ snd (validate_dataframes claims ben)
     = map (app (T "Missing claims column: "))
           (filter (fun col => negb (has_column (columns claims) col)) req_claims)
       ++ map (app (T "Missing benefits column: "))
              (filter (fun col => negb (has_column (columns ben) col)) req_ben)
  /\ NoDup (snd (validate_dataframes claims ben)).
Proof.
  unfold validate_dataframes. rewrite !check_columns_spec. cbn [fst snd app andb].
  split; [reflexivity|]. split; [reflexivity|]. split; [|split].
  - rewrite andb_true_iff, !forallb_forall.
    split; intros [H1 H2]; split; intros col Hc; apply has_column_in; auto.
  - reflexivity.
  - destruct required_cols_nodup as [Hc Hb].
    apply NoDup_app.
    + now apply missing_diagnostics_nodup.
    + now apply missing_diagnostics_nodup.
    + unfold missing_diagnostics. intros x H1 H2.
      apply in_map_iff in H1 as (c1 & <- & _).
      apply in_map_iff in H2 as (c2 & E & _).
      apply (f_equal (firstn 9)) in E. vm_compute in E. discriminate.
Qed.

(** ** [extract_metadata] *)

(** Under [re.I] the set [[A-Z]] holds the letters of both cases. *)
Lemma class_set_letters c :
  cset_match true [CRange "A" "Z"] c = ascii_letter c.
Proof. destruct c as [[] [] [] [] [] [] [] []]; vm_compute; reflexivity. Qed.

Lemma letter_not_space c : ascii_letter c = true -> isspace c = false.
Proof. destruct c as [[] [] [] [] [] [] [] []]; vm_compute; congruence. Qed.

(** The class pattern captures one letter, of either case. *)
Lemma class_capture text m :
  re_search true pat_class text = Some m ->
  exists c, strip (group1 text m) = [c] /\ ascii_letter c = true.
Proof.
  intros Hs.
  destruct (search_group true (lit "class" ++ sp Plus) [Atom [CRange "A" "Z"] Once] []
              text eq_refl eq_refl eq_refl Hs) as (Hall & _ & Hfix & _).
  specialize (Hfix eq_refl). simpl in Hfix.
  destruct (group1 text m) as [|c [|d w]]; try discriminate.
  exists c. unfold allin in Hall. simpl in Hall.
  rewrite orb_false_r, andb_true_r, class_set_letters in Hall.
  split; [|assumption].
  apply strip_no_space. unfold no_space. simpl.
  now rewrite (letter_not_space c Hall).
Qed.

Lemma apply_pattern_class text meta k pat meta' :
  (k = k_class -> pat = pat_class) ->
  class_ok meta ->
  apply_pattern text meta (k, pat) = Ok meta' ->
  class_ok meta'.
Proof.
  intros Hk Hok. unfold apply_pattern.
  destruct (re_search true pat text) as [m|] eqn:Hs.
  - destruct k; simpl.
    + same_meta Hok.
    + destruct (py_int (remove_commas (group1 text m))); simpl; [|discriminate].
      same_meta Hok.
    + same_meta Hok.
    + intros E. injection E as <-. rewrite (Hk eq_refl) in Hs.
      right. simpl. now apply class_capture.
    + same_meta Hok.
  - same_meta Hok.
Qed.

Lemma apply_patterns_class text ps : forall meta meta',
  Forall (fun kp => fst kp = k_class -> snd kp = pat_class) ps ->
  class_ok meta ->
  apply_patterns text meta ps = Ok meta' ->
  class_ok meta'.
Proof.
  induction ps as [|[k pat] ps IH]; intros meta meta' Hps Hok;
    cbn [apply_patterns].
  - same_meta Hok.
  - inversion Hps as [|? ? Hkp Hrest]; subst.
    destruct (apply_pattern text meta (k, pat)) as [meta1|] eqn:H1;
      cbn [bind]; [|discriminate].
    apply IH; [assumption|].
    now apply (@apply_pattern_class text meta k pat meta1).
Qed.


(** C2, on the code.  On the page text ["class b"] the class returned is
    ["b"], which is not an upper-case letter: under [re.I] the set [[A-Z]]
    of the class pattern also takes the lower-case letters. *)
Theorem lowercase_class_is_returned (reformat_date : str -> option str) :
  extract_metadata reformat_date (T "class b")
  = Ok (mk_meta None 1000000 None (T "2023-02-16") (T "b") None)
  /\ single_uppercase (T "b") = false
  /\ single_uppercase (T "B") = true.
Proof. repeat split; vm_compute; reflexivity. Qed.


Lemma apply_pattern_no_expiry text meta k pat meta' :
  (k = k_policy_expiry -> re_search true pat text = None) ->
  no_expiry meta ->
  apply_pattern text meta (k, pat) = Ok meta' ->
  no_expiry meta'.
Proof.
  intros Hk Hok. unfold apply_pattern.
  destruct (re_search true pat text) as [m|] eqn:Hs.
  - destruct k; simpl.
    + same_meta Hok.
    + destruct (py_int (remove_commas (group1 text m))); simpl; [|discriminate].
      same_meta Hok.
    + specialize (Hk eq_refl). discriminate.
    + same_meta Hok.
    + same_meta Hok.
  - same_meta Hok.
Qed.

Lemma apply_patterns_no_expiry text ps : forall meta meta',
  Forall (fun kp => fst kp = k_policy_expiry -> re_search true (snd kp) text = None) ps ->
  no_expiry meta ->
  apply_patterns text meta ps = Ok meta' ->
  no_expiry meta'.
Proof.
  induction ps as [|[k pat] ps IH]; intros meta meta' Hps Hok;
    cbn [apply_patterns].
  - same_meta Hok.
  - inversion Hps as [|? ? Hkp Hrest]; subst.
    destruct (apply_pattern text meta (k, pat)) as [meta1|] eqn:H1;
      cbn [bind]; [|discriminate].
    apply IH; [assumption|].
    now apply (@apply_pattern_no_expiry text meta k pat meta1).
Qed.

(** A page without the "policy expiry date" phrase keeps the default end
    date. *)
Lemma end_date_default_without_expiry reformat_date text meta :
  re_search true pat_policy_expiry text = None ->
  extract_metadata reformat_date text = Ok meta ->
  end_date meta = T "2023-02-16".
Proof.
  intros Hnone. unfold extract_metadata.
  destruct (apply_patterns text default_meta patterns) as [meta1|] eqn:H1; simpl;
    [|discriminate].
  intros E. injection E as <-.
  assert (Hok : no_expiry meta1).
  { apply (@apply_patterns_no_expiry text patterns default_meta meta1); auto.
    - unfold patterns. repeat constructor; simpl; congruence.
    - split; reflexivity. }
  destruct Hok as [Hexp Hend]. unfold normalise_end_date. rewrite Hexp. exact Hend.
Qed.

Lemma end_date_default_without_expiry_witness :
  end_date (mk_meta (Some (T "42")) 1000000 None (T "2023-02-16") (T "A") None)
  = T "2023-02-16".
Proof.
  apply (@end_date_default_without_expiry (fun _ => Some (T "1999-01-01"))
           (T "Group Number 42 Class A")).
  - vm_compute. reflexivity.
  - vm_compute. reflexivity.
Defined.

(** * Further properties *)

(** ** Characters *)

Lemma digit_facts c :
  isdecimal c = true ->
  isspace c = false /\ num_space c = false /\ is_code 45 c = false
  /\ is_code 43 c = false /\ is_code 95 c = false /\ is_code 44 c = false
  /\ (0 <= digit_val c)%Z.
Proof.
  destruct c as [[] [] [] [] [] [] [] []]; vm_compute; intros H;
    try discriminate; repeat split; discriminate.
Qed.

Lemma word_not_space c : isword c = true -> isspace c = false.
Proof. destruct c as [[] [] [] [] [] [] [] []]; vm_compute; congruence. Qed.

Lemma limit_set c :
  cset_match true [CDigit; CLit ","] c = isdecimal c || is_code 44 c.
Proof. destruct c as [[] [] [] [] [] [] [] []]; vm_compute; reflexivity. Qed.

Lemma lower_char_idem c : lower_char (lower_char c) = lower_char c.
Proof. destruct c as [[] [] [] [] [] [] [] []]; vm_compute; reflexivity. Qed.

Lemma digits_no_space ds : forallb isdecimal ds = true -> no_space ds.
Proof.
  unfold no_space. induction ds as [|c ds IH]; simpl; [reflexivity|].
  intros H. apply andb_true_iff in H as [Hc Hds].
  destruct (digit_facts c Hc) as (-> & _). simpl. now apply IH.
Qed.

(** ** [int] on a run of digits *)

Lemma num_lstrip_digits ds : forallb isdecimal ds = true -> num_lstrip ds = ds.
Proof.
  destruct ds as [|c ds]; [reflexivity|]. simpl. intros H.
  apply andb_true_iff in H as [Hc _].
  destruct (digit_facts c Hc) as (_ & -> & _). reflexivity.
Qed.

Lemma forallb_rev {A : Type} (f : A -> bool) (l : list A) :
  forallb f (rev l) = forallb f l.
Proof.
  induction l as [|x l IH]; [reflexivity|]. simpl.
  rewrite forallb_app, IH. simpl. rewrite andb_true_r. apply andb_comm.
Qed.

Lemma num_strip_digits ds : forallb isdecimal ds = true -> num_strip ds = ds.
Proof.
  intros H. unfold num_strip. rewrite (num_lstrip_digits ds H).
  rewrite num_lstrip_digits by now rewrite forallb_rev.
  apply rev_involutive.
Qed.

Lemma drop_underscores_digits ds : forall prev,
  forallb isdecimal ds = true ->
  match prev with Some p => isdecimal p = true | None => True end ->
  drop_underscores prev ds = Some ds.
Proof.
  induction ds as [|c ds IH]; intros prev Hds Hprev; simpl.
  - destruct prev as [p|]; [|reflexivity].
    destruct (digit_facts p Hprev) as (_ & _ & _ & _ & -> & _). reflexivity.
  - simpl in Hds. apply andb_true_iff in Hds as [Hc Hds].
    destruct (digit_facts c Hc) as (_ & _ & _ & _ & -> & _).
    rewrite Hc. rewrite andb_false_r. now rewrite (IH (Some c) Hds Hc).
Qed.

Lemma digits_value_from acc ds :
  (0 <= acc)%Z -> forallb isdecimal ds = true ->
  (0 <= fold_left (fun a c => 10 * a + digit_val c) ds acc)%Z.
Proof.
  revert acc. induction ds as [|c ds IH]; intros acc Hacc Hds;
    cbn [fold_left]; [assumption|].
  simpl in Hds. apply andb_true_iff in Hds as [Hc Hds].
  apply IH; [|assumption].
  destruct (digit_facts c Hc) as (_ & _ & _ & _ & _ & _ & Hv). lia.
Qed.

Lemma digits_value_nonneg ds :
  forallb isdecimal ds = true -> (0 <= digits_value ds)%Z.
Proof. intros H. unfold digits_value. now apply digits_value_from. Qed.

(** [int] reads a run of digits unless it is empty or too long. *)
Lemma py_int_digits ds :
  forallb isdecimal ds = true ->
  py_int ds =
  match ds with
  | [] => None
  | _ :: _ =>
      if List.length ds <=? int_max_str_digits then Some (digits_value ds) else None
  end.
Proof.
  intros H. unfold py_int. rewrite (num_strip_digits ds H).
  destruct ds as [|c ds]; [reflexivity|].
  pose proof H as H'. simpl in H'. apply andb_true_iff in H' as [Hc _].
  destruct (digit_facts c Hc) as (_ & _ & Hm & Hp & _).
  unfold split_sign. rewrite Hm, Hp, Hc.
  rewrite (drop_underscores_digits (c :: ds) None H I), H. reflexivity.
Qed.

(** ** The fields of [extract_metadata] *)

Lemma remove_commas_digits w :
  forallb (fun c => isdecimal c || is_code 44 c) w = true ->
  forallb isdecimal (remove_commas w) = true.
Proof.
  unfold remove_commas. induction w as [|c w IH]; simpl; [reflexivity|].
  intros H. apply andb_true_iff in H as [Hc Hw].
  destruct (is_code 44 c) eqn:H44; simpl; [now apply IH|].
  rewrite orb_false_r in Hc. rewrite Hc. now apply IH.
Qed.

Lemma remove_commas_nil w :
  remove_commas w = [] <-> forallb (is_code 44) w = true.
Proof.
  unfold remove_commas. induction w as [|c w IH]; simpl; [tauto|].
  destruct (is_code 44 c); simpl; [exact IH|]. split; discriminate.
Qed.

(** The overall-limit pattern captures digits and commas. *)
Lemma limit_capture text m :
  re_search true pat_overall_limit text = Some m ->
  forallb isdecimal (remove_commas (group1 text m)) = true.
Proof.
  intros Hs.
  destruct (search_group true
              (lit "overall" ++ sp Star ++ lit "benefit" ++ sp Star ++ lit "limit" ++ sp Plus)
              [Atom [CDigit; CLit ","] Plus] [] text eq_refl eq_refl eq_refl Hs)
    as (Hall & _).
  apply remove_commas_digits. unfold allin in Hall.
  rewrite forallb_forall in *. intros c Hc. specialize (Hall c Hc).
  simpl in Hall. now rewrite orb_false_r, limit_set in Hall.
Qed.

(** [extract_metadata] field by field: each field comes from its own
    pattern. *)
Lemma extract_metadata_fields reformat_date text :
  match extract_metadata reformat_date text with
  | ValueError =>
      exists m, re_search true pat_overall_limit text = Some m
                /\ py_int (remove_commas (group1 text m)) = None
  | Ok meta =>
      group_number meta
      = option_map (fun m => strip (group1 text m))
          (re_search true pat_group_number text)
      /\ match re_search true pat_overall_limit text with
         | Some m => py_int (remove_commas (group1 text m)) = Some (overall_limit meta)
         | None => overall_limit meta = 1000000%Z
         end
      /\ policy_expiry meta
         = option_map (fun m => strip (group1 text m))
             (re_search true pat_policy_expiry text)
      /\ class meta
         = match re_search true pat_class text with
           | Some m => strip (group1 text m)
           | None => T "B"
           end
      /\ deductible meta
         = option_map (fun m => strip (group1 text m))
             (re_search true pat_deductible text)
      /\ end_date meta
         = match policy_expiry meta with
           | Some (c :: e) =>
               match reformat_date (c :: e) with
               | Some d => d
               | None => T "2023-02-16"
               end
           | _ => T "2023-02-16"
           end
  end.
Proof.
  unfold extract_metadata, patterns. cbn [apply_patterns]. unfold apply_pattern.
  destruct (re_search true pat_group_number text) as [m1|];
  destruct (re_search true pat_overall_limit text) as [m2|];
  [ destruct (py_int (remove_commas (group1 text m2))) as [n|] eqn:Hn | |
    destruct (py_int (remove_commas (group1 text m2))) as [n|] eqn:Hn | ];
  cbn [bind of_option];
  try (now exists m2);
  destruct (re_search true pat_policy_expiry text) as [m3|];
  destruct (re_search true pat_class text) as [m4|];
  destruct (re_search true pat_deductible text) as [m5|];
  cbn [bind set_text set_overall_limit group_number overall_limit policy_expiry
       end_date class deductible option_map];
  unfold normalise_end_date;
  cbn [truthy policy_expiry];
  repeat match goal with |- _ /\ _ => split end;
  try reflexivity; try assumption;
  (destruct (strip (group1 text m3)) as [|c e];
   [reflexivity
   | cbn [truthy]; destruct (reformat_date (c :: e)) eqn:Hr;
     cbn [policy_expiry set_end_date end_date]; rewrite ?Hr; reflexivity]).
Qed.

(** ** [strip] *)

Lemma lstrip_clean s : clean_head (lstrip s).
Proof.
  induction s as [|c s IH]; simpl; [exact I|].
  destruct (isspace c) eqn:Hc; [exact IH|exact Hc].
Qed.

Lemma lstrip_of_clean s : clean_head s -> lstrip s = s.
Proof. destruct s as [|c s]; simpl; [reflexivity|]. now intros ->. Qed.

Lemma lstrip_snoc a c :
  isspace c = false -> lstrip (a ++ [c]) = lstrip a ++ [c].
Proof.
  intros Hc. induction a as [|x a IH]; simpl; [now rewrite Hc|].
  destruct (isspace x); [exact IH|reflexivity].
Qed.

Lemma rstrip_cons c t :
  isspace c = false -> rstrip (c :: t) = c :: rstrip t.
Proof.
  intros Hc. unfold rstrip. simpl.
  rewrite (@lstrip_snoc (rev t) c Hc), rev_app_distr. reflexivity.
Qed.

Lemma rstrip_idem s : rstrip (rstrip s) = rstrip s.
Proof.
  unfold rstrip. rewrite rev_involutive.
  now rewrite (@lstrip_of_clean _ (lstrip_clean (rev s))).
Qed.

Lemma rstrip_clean t : clean_head t -> clean_head (rstrip t).
Proof.
  destruct t as [|c t]; simpl; [intros _; exact I|].
  intros Hc. rewrite (@rstrip_cons c t Hc). exact Hc.
Qed.

(** Stripping a stripped text changes nothing. *)
Lemma strip_idem s : strip (strip s) = strip s.
Proof.
  unfold strip.
  rewrite (@lstrip_of_clean _ (@rstrip_clean _ (lstrip_clean s))).
  apply rstrip_idem.
Qed.

Lemma strip_cons_not_empty c w : isspace c = false -> strip (c :: w) <> [].
Proof.
  intros Hc. unfold strip. rewrite (@lstrip_of_clean (c :: w) Hc).
  rewrite (@rstrip_cons c w Hc). discriminate.
Qed.

(** ** The first character of a group *)

Lemma search_group_head ic r1 cs q tail r2 s m :
  plain r1 = true -> plain tail = true -> plain r2 = true ->
  1 <= min_quant q ->
  re_search ic (r1 ++ grp (Atom cs q :: tail) ++ r2) s = Some m ->
  exists c w, group1 s m = c :: w /\ cset_match ic cs c = true.
Proof.
  intros H1 Ht H2 Hq Hs. unfold re_search in Hs.
  apply search_from_sound in Hs as (pre & rest & -> & Hstart & Hp).
  apply path_plain_prefix in Hp as (u1 & v1 & -> & _ & _ & _ & Hp); [|assumption].
  unfold grp in Hp. cbn [app path fst snd] in Hp.
  destruct Hp as (u & v & -> & Hu & Hqu & Hp).
  rewrite <- app_assoc in Hp.
  apply path_plain_prefix in Hp as (ut & v2 & -> & _ & _ & _ & Hp); [|assumption].
  cbn [app path fst snd] in Hp.
  rewrite <- (app_nil_r r2) in Hp.
  apply path_plain_prefix in Hp as (u2 & v3 & -> & _ & _ & _ & Hp); [|assumption].
  simpl in Hp.
  assert (Hg : m_group m = (Some (List.length (pre ++ u1)),
                            Some (List.length (pre ++ u1) + List.length (u ++ ut)))).
  { rewrite !length_app. rewrite Hstart in Hp.
    injection Hp as _ Hg. rewrite Hg. f_equal; f_equal; lia. }
  unfold group1. rewrite Hg.
  replace (pre ++ u1 ++ u ++ ut ++ u2 ++ v3)
    with ((pre ++ u1) ++ (u ++ ut) ++ (u2 ++ v3))
    by (rewrite <- !app_assoc; reflexivity).
  rewrite slice_middle.
  apply quant_ok_min in Hqu.
  destruct u as [|c u]; simpl in *; [lia|].
  apply andb_true_iff in Hu as [Hc _]. now exists c, (u ++ ut).
Qed.

(** ** [extract_metadata], further *)

(** X3.  [extract_metadata] raises exactly on a found overall limit that is
    made of commas only or has more digits than [int] accepts. *)
Theorem extract_metadata_raises_iff (reformat_date : str -> option str) (text : str) :
  extract_metadata reformat_date text = ValueError
  <-> exists m,
        re_search true pat_overall_limit text = Some m
        /\ (forallb (is_code 44) (group1 text m) = true
            \/ int_max_str_digits < List.length (remove_commas (group1 text m))).
Proof.
  pose proof (extract_metadata_fields reformat_date text) as H.
  assert (Hint : forall m, re_search true pat_overall_limit text = Some m ->
            (py_int (remove_commas (group1 text m)) = None
             <-> forallb (is_code 44) (group1 text m) = true
                 \/ int_max_str_digits < List.length (remove_commas (group1 text m)))).
  { intros m Hm. rewrite (@py_int_digits _ (@limit_capture text m Hm)).
    rewrite <- remove_commas_nil.
    destruct (remove_commas (group1 text m)) as [|c ds] eqn:E.
    - split; auto.
    - destruct (List.length (c :: ds) <=? int_max_str_digits) eqn:Hl.
      + apply Nat.leb_le in Hl. split; [discriminate|].
        intros [Hd | Hd]; [discriminate|lia].
      + apply Nat.leb_gt in Hl. split; auto. }
  destruct (extract_metadata reformat_date text) as [meta|].
  - split; [discriminate|]. intros (m & Hm & Hbad).
    destruct H as (_ & Hlim & _). rewrite Hm in Hlim.
    apply (Hint m Hm) in Hbad. congruence.
  - split; [|reflexivity]. intros _. destruct H as (m & Hm & Hnone).
    exists m. split; [assumption|]. now apply (Hint m Hm).
Qed.

(** X4.  The overall limit returned is never negative: it is the default, or
    the digits of the capture read as one number once the commas are dropped,
    wherever the commas stand. *)
Theorem overall_limit_is_digits_read
  (reformat_date : str -> option str) (text : str) (meta : Meta) :
  extract_metadata reformat_date text = Ok meta ->
  (0 <= overall_limit meta)%Z
  /\ match re_search true pat_overall_limit text with
     | Some m => overall_limit meta = digits_value (remove_commas (group1 text m))
     | None => overall_limit meta = 1000000%Z
     end.
Proof.
  intros E. pose proof (extract_metadata_fields reformat_date text) as H.
  rewrite E in H. destruct H as (_ & Hlim & _).
  destruct (re_search true pat_overall_limit text) as [m|] eqn:Hm.
  - pose proof (@limit_capture text m Hm) as Hd.
    rewrite (@py_int_digits _ Hd) in Hlim.
    destruct (remove_commas (group1 text m)) as [|c ds] eqn:Er; [discriminate|].
    destruct (List.length (c :: ds) <=? int_max_str_digits); [|discriminate].
    injection Hlim as <-. split; [now apply (@digits_value_nonneg _ Hd)|reflexivity].
  - rewrite Hlim. split; [lia|reflexivity].
Qed.

Lemma overall_limit_is_digits_read_witness :
  (0 <= 2500000)%Z
  /\ match re_search true pat_overall_limit (T "Overall Benefit Limit 2,50,0000 SAR") with
     | Some m =>
         2500000%Z
         = digits_value
             (remove_commas (group1 (T "Overall Benefit Limit 2,50,0000 SAR") m))
     | None => 2500000%Z = 1000000%Z
     end.
Proof.
  apply (@overall_limit_is_digits_read (fun _ => None)
           (T "Overall Benefit Limit 2,50,0000 SAR")
           (mk_meta None 2500000 None (T "2023-02-16") (T "B") None)).
  vm_compute. reflexivity.
Defined.

(** X5.  A group number, when one is returned, is a non-empty run of decimal
    digits. *)
Theorem group_number_is_digits
  (reformat_date : str -> option str) (text : str) (meta : Meta) (g : str) :
  extract_metadata reformat_date text = Ok meta ->
  group_number meta = Some g ->
  g <> [] /\ forallb isdecimal g = true.
Proof.
  intros E Hg. pose proof (extract_metadata_fields reformat_date text) as H.
  rewrite E in H. destruct H as (Hgn & _). rewrite Hg in Hgn.
  destruct (re_search true pat_group_number text) as [m|] eqn:Hm; [|discriminate].
  simpl in Hgn. injection Hgn as ->.
  destruct (@search_group true (lit "group" ++ sp Star ++ lit "number" ++ sp Plus)
              (dg Plus) [] text m eq_refl eq_refl eq_refl Hm) as (Hall & Hmin & _).
  rewrite allin_digits in Hall.
  rewrite (@strip_no_space _ (@digits_no_space _ Hall)). split; [|assumption].
  simpl in Hmin. destruct (group1 text m); simpl in *; [lia|discriminate].
Qed.

Lemma group_number_is_digits_witness :
  T "0042" <> [] /\ forallb isdecimal (T "0042") = true.
Proof.
  apply (@group_number_is_digits (fun _ => None) (T "GROUP  NUMBER 0042-A")
           (mk_meta (Some (T "0042")) 1000000 None (T "2023-02-16") (T "B") None)).
  - vm_compute. reflexivity.
  - reflexivity.
Defined.

(** X6.  When an expiry date is read, the end date is its reformatted form,
    and the default end date if the reformatting fails. *)
Theorem end_date_from_expiry
  (reformat_date : str -> option str) (text : str) (meta : Meta) (e : str) :
  extract_metadata reformat_date text = Ok meta ->
  policy_expiry meta = Some e ->
  end_date meta = match reformat_date e with
                  | Some d => d
                  | None => T "2023-02-16"
                  end.
Proof.
  intros E He. pose proof (extract_metadata_fields reformat_date text) as H.
  rewrite E in H. destruct H as (_ & _ & Hexp & _ & _ & Hend).
  rewrite He in Hexp, Hend.
  destruct (re_search true pat_policy_expiry text) as [m|] eqn:Hm; [|discriminate].
  simpl in Hexp. injection Hexp as He'.
  destruct (@search_group_head true
              (lit "policy" ++ sp Star ++ lit "expiry" ++ sp Star ++ lit "date" ++ sp Plus)
              [CWord] Plus
              (sp Plus ++ dg Plus ++ lit "," ++ sp Plus ++ dg Plus) [] text m
              eq_refl eq_refl eq_refl (le_n 1) Hm) as (c & w & Hcw & Hc).
  assert (Hne : e <> []).
  { rewrite He', Hcw. apply strip_cons_not_empty. apply word_not_space.
    unfold cset_match in Hc. simpl in Hc. now rewrite orb_false_r in Hc. }
  destruct e as [|c' e']; [congruence|exact Hend].
Qed.

Lemma end_date_from_expiry_witness :
  T "2024-03-31"
  = match (fun e => if str_eqb e (T "Mar 31, 2024") then Some (T "2024-03-31") else None)
            (T "Mar 31, 2024") with
    | Some d => d
    | None => T "2023-02-16"
    end.
Proof.
  apply (@end_date_from_expiry
           (fun e => if str_eqb e (T "Mar 31, 2024") then Some (T "2024-03-31") else None)
           (T "Policy Expiry Date  Mar 31, 2024")
           (mk_meta None 1000000 (Some (T "Mar 31, 2024")) (T "2024-03-31") (T "B") None)
           (T "Mar 31, 2024")).
  - vm_compute. reflexivity.
  - reflexivity.
Defined.

(** ** [extract_claims_data], further *)

Lemma parse_data_line_cases meta sec line :
  parse_data_line meta sec line = []
  \/ exists r,
       parse_data_line meta sec line = [r]
       /\ build_record meta sec (str_split line) = Ok r.
Proof.
  unfold parse_data_line.
  destruct (5 <=? List.length (str_split line)); [|now left].
  destruct (empty_amount (str_split line)); [now left|].
  destruct (build_record meta sec (str_split line)) as [r|]; [|now left].
  right. now exists r.
Qed.

(** What a line adds: nothing, or the one record built from its tokens
    under the section in force. *)
Lemma emit_cases meta cs raw :
  snd (emit meta cs raw) = []
  \/ exists sec r,
       snd (emit meta cs raw) = [r]
       /\ header_transition cs (strip raw) = Some sec
       /\ six_leading_digits (strip raw) = true
       /\ build_record meta sec (str_split (strip raw)) = Ok r.
Proof.
  rewrite emit_snd. unfold data_line.
  destruct (truthy (header_transition cs (strip raw))); [|now left].
  rewrite match_six_digits.
  destruct (six_leading_digits (strip raw)) eqn:H6; [|now left]. simpl.
  destruct (header_transition cs (strip raw)) as [sec|]; [|now left].
  destruct (parse_data_line_cases meta sec (strip raw)) as [-> | (r & -> & Hr)];
    [now left|].
  right. now exists sec, r.
Qed.

Lemma run_indexed_sorted meta lines : forall i cs,
  StronglySorted lt (map fst (run_indexed meta i cs lines))
  /\ Forall (fun j => i <= j) (map fst (run_indexed meta i cs lines)).
Proof.
  induction lines as [|raw lines IH]; intros i cs; [split; constructor|].
  cbn [run_indexed]. rewrite (surjective_pairing (emit meta cs raw)).
  destruct (IH (S i) (fst (emit meta cs raw))) as [Hs Hf].
  assert (Hf' : Forall (fun j => i <= j)
                  (map fst (run_indexed meta (S i) (fst (emit meta cs raw)) lines))).
  { eapply Forall_impl; [|exact Hf]. simpl. intros; lia. }
  destruct (emit_cases meta cs raw) as [-> | (sec & r & -> & _)]; simpl.
  - split; assumption.
  - split.
    + constructor; [assumption|].
      eapply Forall_impl; [|exact Hf]. simpl. intros; lia.
    + constructor; [lia|assumption].
Qed.

Lemma run_indexed_length meta lines : forall i cs,
  List.length (run_indexed meta i cs lines) <= List.length lines.
Proof.
  induction lines as [|raw lines IH]; intros i cs; [simpl; lia|].
  cbn [run_indexed]. rewrite (surjective_pairing (emit meta cs raw)).
  rewrite length_app, length_map. specialize (IH (S i) (fst (emit meta cs raw))).
  destruct (emit_cases meta cs raw) as [-> | (sec & r & -> & _)]; simpl; lia.
Qed.

(** X7.  A line gives at most one record and the records stand in the order
    of their lines, so there are never more records than lines. *)
Theorem records_follow_lines (meta : Meta) (lines : list str) :
  StronglySorted lt (map fst (parse_lines_indexed meta lines))
  /\ map snd (parse_lines_indexed meta lines) = parse_lines meta lines
  /\ List.length (parse_lines meta lines) <= List.length lines.
Proof.
  split; [apply run_indexed_sorted|]. split; [apply run_indexed_erase|].
  unfold parse_lines. rewrite <- (run_indexed_erase meta lines 0 None), length_map.
  apply run_indexed_length.
Qed.

Lemma build_record_restamp meta meta' sec (parts : list str) :
  build_record meta' sec parts
  = match build_record meta sec parts with
    | Ok r => Ok (restamp meta' r)
    | ValueError => ValueError
    end.
Proof.
  unfold build_record.
  destruct (py_int (nth 1 parts [])); [|reflexivity].
  destruct (py_int (nth 2 parts [])); [|reflexivity].
  destruct (py_float (remove_commas (nth 3 parts []))); [|reflexivity].
  destruct (py_float (remove_commas (nth 4 parts []))); reflexivity.
Qed.

Lemma emit_restamp meta meta' cs raw :
  emit meta' cs raw
  = (fst (emit meta cs raw), map (restamp meta') (snd (emit meta cs raw))).
Proof.
  rewrite (surjective_pairing (emit meta' cs raw)).
  rewrite !emit_fst, !emit_snd.
  destruct (data_line (header_transition cs (strip raw)) (strip raw)); [|reflexivity].
  destruct (header_transition cs (strip raw)) as [sec|]; [|reflexivity].
  unfold parse_data_line.
  destruct (5 <=? List.length (str_split (strip raw))); [|reflexivity].
  destruct (empty_amount (str_split (strip raw))); [reflexivity|].
  rewrite (build_record_restamp meta meta').
  destruct (build_record meta sec (str_split (strip raw))); reflexivity.
Qed.

Lemma run_lines_restamp meta meta' lines : forall cs,
  snd (run_lines meta' lines (cs, []))
  = map (restamp meta') (snd (run_lines meta lines (cs, []))).
Proof.
  induction lines as [|raw lines IH]; intros cs; [reflexivity|].
  rewrite !run_lines_cons. cbn [snd app].
  rewrite map_app, <- IH, (emit_restamp meta meta'). reflexivity.
Qed.

Lemma emit_stamped meta cs raw r :
  In r (snd (emit meta cs raw)) -> restamp meta r = r.
Proof.
  destruct (emit_cases meta cs raw) as [-> | (sec & r' & -> & _ & _ & Hb)];
    [intros []|].
  intros [<- | []]. unfold build_record in Hb.
  destruct (py_int (nth 1 (str_split (strip raw)) [])); [|discriminate].
  destruct (py_int (nth 2 (str_split (strip raw)) [])); [|discriminate].
  destruct (py_float (remove_commas (nth 3 (str_split (strip raw)) [])));
    [|discriminate].
  destruct (py_float (remove_commas (nth 4 (str_split (strip raw)) [])));
    [|discriminate].
  simpl in Hb. injection Hb as <-. reflexivity.
Qed.

(** Every record comes from a turn of the loop, taken under a section the
    loop can be in. *)
Lemma run_lines_records meta lines : forall cs r,
  section_ok cs ->
  In r (snd (run_lines meta lines (cs, []))) ->
  exists cs' raw,
    section_ok cs' /\ In raw lines /\ In r (snd (emit meta cs' raw)).
Proof.
  induction lines as [|raw lines IH]; intros cs r Hok; [intros []|].
  rewrite run_lines_cons. cbn [snd app]. rewrite in_app_iff. intros [Hin | Hin].
  - exists cs, raw. repeat split; [assumption|now left|assumption].
  - apply IH in Hin as (cs' & raw' & Hok' & Hraw & Hin);
      [|now apply header_transition_ok].
    exists cs', raw'. repeat split; [assumption|now right|assumption].
Qed.

Lemma section_ok_none : section_ok None.
Proof. now left. Qed.

Lemma parse_lines_stamped meta lines :
  Forall (fun r => Claims.End_Date r = end_date meta
                   /\ Claims.Class r = class meta
                   /\ Claims.Overall_Limit r = overall_limit meta)
         (parse_lines meta lines).
Proof.
  apply Forall_forall. intros r Hin.
  apply run_lines_records in Hin as (cs & raw & _ & _ & Hin); [|apply section_ok_none].
  apply emit_stamped in Hin. rewrite <- Hin. repeat split.
Qed.

(** X8.  The metadata only stamps the records.  Each record carries the end
    date, the class and the overall limit of the metadata, and with other
    metadata the same lines give the same records but for these three
    values. *)
Theorem metadata_only_stamps_records (meta meta' : Meta) (lines : list str) :
  Forall (fun r => Claims.End_Date r = end_date meta
                   /\ Claims.Class r = class meta
                   /\ Claims.Overall_Limit r = overall_limit meta)
         (parse_lines meta lines)
  /\ parse_lines meta' lines = map (restamp meta') (parse_lines meta lines).
Proof.
  split; [apply parse_lines_stamped|apply run_lines_restamp].
Qed.

Lemma split_loop_run u : forall cur tail,
  no_space u -> split_loop cur (u ++ tail) = split_loop (rev u ++ cur) tail.
Proof.
  induction u as [|c u IH]; intros cur tail Hu; [reflexivity|].
  unfold no_space in Hu. simpl in Hu. apply andb_true_iff in Hu as [Hc Hu].
  apply negb_true_iff in Hc. simpl. rewrite Hc, (IH (c :: cur) tail Hu).
  now rewrite <- app_assoc.
Qed.

Lemma split_loop_first s : forall cur,
  cur <> [] -> exists w rest, split_loop cur s = (rev cur ++ w) :: rest.
Proof.
  induction s as [|c s IH]; intros cur Hcur; simpl.
  - destruct cur; [congruence|]. exists [], []. now rewrite app_nil_r.
  - destruct (isspace c).
    + destruct cur; [congruence|]. exists [], (split_loop [] s). now rewrite app_nil_r.
    + destruct (IH (c :: cur)) as (w & rest & ->); [discriminate|].
      exists (c :: w), rest. simpl. now rewrite <- app_assoc.
Qed.

(** The first token of a line that begins with six digits begins with
    them. *)
Lemma first_token_six_leading line :
  six_leading_digits line = true ->
  exists t rest, str_split line = t :: rest /\ six_leading_digits t = true.
Proof.
  unfold six_leading_digits. intros H. apply andb_true_iff in H as [Hlen Hd].
  apply Nat.leb_le in Hlen.
  assert (Hu : List.length (firstn 6 line) = 6) by (rewrite length_firstn; lia).
  assert (Hs : str_split line
               = split_loop (rev (firstn 6 line) ++ []) (skipn 6 line)).
  { unfold str_split.
    rewrite <- (@split_loop_run (firstn 6 line) [] (skipn 6 line)
                  (@digits_no_space _ Hd)).
    now rewrite firstn_skipn. }
  destruct (@split_loop_first (skipn 6 line) (rev (firstn 6 line) ++ []))
    as (w & rest & Hw).
  { rewrite app_nil_r. intros E. apply (f_equal (@List.length ascii)) in E.
    rewrite length_rev, Hu in E. discriminate. }
  rewrite app_nil_r, rev_involutive in Hw. rewrite app_nil_r in Hs.
  exists (firstn 6 line ++ w), rest. split; [now rewrite Hs|].
  rewrite length_app, Hu.
  replace (6 <=? 6 + List.length w) with true by (symmetry; apply Nat.leb_le; lia).
  rewrite firstn_app, Hu. change (6 - 6) with 0. rewrite firstn_0, app_nil_r.
  rewrite <- Hu at 1. now rewrite firstn_all, Hd.
Qed.

Lemma build_record_fields meta sec (parts : list str) r :
  build_record meta sec parts = Ok r ->
  Claims.Monthly_Claims r = nth 0 parts [] /\ Claims.Policy_Year r = sec.
Proof.
  unfold build_record.
  destruct (py_int (nth 1 parts [])); [|discriminate].
  destruct (py_int (nth 2 parts [])); [|discriminate].
  destruct (py_float (remove_commas (nth 3 parts []))); [|discriminate].
  destruct (py_float (remove_commas (nth 4 parts []))); [|discriminate].
  simpl. intros E. injection E as <-. split; reflexivity.
Qed.

(** X9.  In every record the month label is one token free of white space
    that begins with six decimal digits, and the policy year is one of the
    three section labels. *)
Theorem record_shape (meta : Meta) (lines : list str) :
  Forall (fun r => six_leading_digits (Claims.Monthly_Claims r) = true
                   /\ no_space (Claims.Monthly_Claims r)
                   /\ In (Claims.Policy_Year r) section_labels)
         (parse_lines meta lines).
Proof.
  apply Forall_forall. intros r Hin.
  apply run_lines_records in Hin as (cs & raw & Hok & _ & Hin); [|apply section_ok_none].
  destruct (emit_cases meta cs raw) as [E | (sec & r' & E & Hsec & H6 & Hb)];
    rewrite E in Hin; [destruct Hin|].
  destruct Hin as [<- | []].
  apply build_record_fields in Hb as [-> ->].
  destruct (first_token_six_leading (strip raw) H6) as (t & rest & Hsplit & Ht).
  pose proof (str_split_tokens (strip raw)) as Htok.
  rewrite Hsplit in Htok. inversion Htok as [|? ? [_ Hns] _]; subst.
  rewrite Hsplit. simpl. repeat split; [assumption|assumption|].
  pose proof (header_transition_ok (strip raw) Hok) as Hok'.
  rewrite Hsec in Hok'. destruct Hok' as [Hn | (l & Hl & E')]; [discriminate|].
  now injection E' as ->.
Qed.

Lemma emit_strip meta cs raw : emit meta cs (strip raw) = emit meta cs raw.
Proof. unfold emit. now rewrite strip_idem. Qed.

Lemma run_lines_strip meta lines : forall st,
  run_lines meta (map strip lines) st = run_lines meta lines st.
Proof.
  unfold run_lines. induction lines as [|raw lines IH]; intros st; [reflexivity|].
  simpl. rewrite IH. f_equal. unfold loop_body. now rewrite emit_strip.
Qed.

(** X10.  White space at the two ends of a line never matters: the lines and
    the stripped lines give the same records. *)
Theorem surrounding_spaces_ignored (meta : Meta) (lines : list str) :
  parse_lines meta (map strip lines) = parse_lines meta lines.
Proof. unfold parse_lines. now rewrite run_lines_strip. Qed.

(** X11.  Lines that follow never change what the lines before them gave: the
    records of the first lines stay, and the later lines only see the
    section label the first lines left. *)
Theorem later_lines_only_append (meta : Meta) (pre post : list str) :
  parse_lines meta (pre ++ post)
  = parse_lines meta pre ++ snd (run_lines meta post (last_header pre, [])).
Proof.
  unfold parse_lines. rewrite run_lines_app.
  rewrite (surjective_pairing (run_lines meta pre (None, []))).
  rewrite run_lines_acc. cbn [snd]. now rewrite run_lines_section.
Qed.

(** ** [_process_notes], further *)

Lemma lit_set a x : cset_match false [CLit a] x = Ascii.eqb x a.
Proof. unfold cset_match. simpl. now rewrite orb_false_r. Qed.

Lemma space_set ic x : cset_match ic [CSpace] x = isspace x.
Proof. destruct ic; unfold cset_match; simpl; now rewrite orb_false_r. Qed.

Lemma forallb_space_set ic s :
  forallb (cset_match ic [CSpace]) s = forallb isspace s.
Proof.
  induction s as [|x s IH]; simpl; [reflexivity|]. now rewrite space_set, IH.
Qed.

(** What digits, white space and a percent sign in a row look like to the
    matcher, whatever follows in the pattern. *)
Lemma percent_path r g pos s res :
  path false (grp (dg Plus) ++ sp Star ++ lit "%" ++ r) g pos s res ->
  exists ds ws post,
    s = ds ++ ws ++ T "%" ++ post
    /\ ds <> [] /\ forallb isdecimal ds = true /\ forallb isspace ws = true.
Proof.
  unfold grp, dg, sp, lit. cbn [T list_ascii_of_string map app path fst snd].
  intros (ds & v & -> & Hds & Hlen & ws & v2 & -> & Hws & _ & u3 & post & -> & Hu3 & H1 & _).
  destruct u3 as [|x [|y u3]]; try discriminate. simpl in Hu3.
  rewrite andb_true_r, lit_set in Hu3. apply Ascii.eqb_eq in Hu3. subst x.
  exists ds, ws, post. rewrite forallb_digit in Hds. rewrite forallb_space_set in Hws.
  repeat split; auto. intros ->. simpl in Hlen. lia.
Qed.

Lemma search_percent r1 r2 s :
  plain r1 = true ->
  re_search false (r1 ++ grp (dg Plus) ++ sp Star ++ lit "%" ++ r2) s <> None ->
  has_percent s.
Proof.
  intros H1 Hs. unfold re_search in Hs.
  destruct (search_from false (r1 ++ grp (dg Plus) ++ sp Star ++ lit "%" ++ r2) 0 s)
    as [m|] eqn:E; [|congruence].
  apply search_from_sound in E as (pre & rest & -> & _ & Hp).
  apply path_plain_prefix in Hp as (u1 & v1 & -> & _ & _ & _ & Hp); [|assumption].
  apply percent_path in Hp as (ds & ws & post & -> & Hne & Hd & Hw).
  exists (pre ++ u1), ds, ws, post. rewrite <- app_assoc. repeat split; auto.
Qed.

Lemma has_percent_found s :
  has_percent s -> re_search false pat_pct s <> None.
Proof.
  intros (pre & ds & ws & post & -> & Hne & Hd & Hw).
  apply re_search_iff. exists pre, (ds ++ ws ++ T "%" ++ post). eexists.
  split; [reflexivity|].
  unfold pat_pct, grp, dg, sp, lit. cbn [T list_ascii_of_string map app path fst snd].
  exists ds, (ws ++ T "%" ++ post). rewrite forallb_digit.
  repeat split; auto.
  { destruct ds; [congruence|simpl; lia]. }
  exists ws, (T "%" ++ post). rewrite forallb_space_set. repeat split; auto.
  exists (T "%"), post. repeat split; auto.
Qed.

Lemma note_result_percentage pat s m :
  In pat note_patterns ->
  re_search false pat s = Some m ->
  is_percentage (group1 s m ++ T "%").
Proof.
  intros Hin Hs. destruct (@note_capture_digits pat s m Hin Hs) as [Hne Hd].
  now exists (group1 s m).
Qed.

(** X14.  The result of [_process_notes] is a percentage (digits and a percent
    sign), ["yes"] or ["No info"], and nothing else. *)
Theorem process_notes_range (txt full_line : str) :
  is_percentage (_process_notes txt full_line)
  \/ _process_notes txt full_line = T "yes"
  \/ _process_notes txt full_line = T "No info".
Proof.
  rewrite process_notes_unfold.
  destruct (re_search false pat_paid_pct (combine_notes txt full_line)) as [m|] eqn:H1.
  { left. apply note_result_percentage with pat_paid_pct; simpl; auto. }
  destruct (re_search false pat_pct_up_to (combine_notes txt full_line)) as [m|] eqn:H2.
  { left. apply note_result_percentage with pat_pct_up_to; simpl; auto. }
  destruct (re_search false pat_pct (combine_notes txt full_line)) as [m|] eqn:H3.
  { left. apply note_result_percentage with pat_pct; simpl; auto. }
  destruct (contains (T "cesarean") (combine_notes txt full_line)); auto.
Qed.


(** ** [extract_benefits_data], further *)

Lemma remove_commas_comma_free s :
  existsb (is_code 44) (remove_commas s) = false.
Proof.
  unfold remove_commas. induction s as [|c s IH]; simpl; [reflexivity|].
  destruct (is_code 44 c) eqn:Hc; simpl; [exact IH|]. now rewrite Hc, IH.
Qed.

Lemma convert_column_kind col :
  forallb is_float (convert_column col) = true
  \/ forallb comma_free_text (convert_column col) = true.
Proof.
  unfold convert_column, astype_float_ignore.
  destruct (all_floats (map remove_commas col)) as [fs|].
  - left. induction fs; simpl; auto.
  - right. induction col as [|s col IH]; simpl; [reflexivity|].
    now rewrite remove_commas_comma_free, IH.
Qed.

(** X16.  In the output each of the three numeric columns is of one kind: all
    its cells are floats, or all its cells are texts; and such a text never
    holds a comma. *)
Theorem numeric_columns_of_one_kind (meta : Meta) (grid : list RawRow) :
  let out := map snd (rows (normalize meta grid)) in
  (forallb is_float (map Benefits.Number_of_Claims out) = true
   \/ forallb comma_free_text (map Benefits.Number_of_Claims out) = true)
  /\ (forallb is_float (map Benefits.Amount_of_Claims out) = true
      \/ forallb comma_free_text (map Benefits.Amount_of_Claims out) = true)
  /\ (forallb is_float (map Benefits.Amount_of_Claims_VAT out) = true
      \/ forallb comma_free_text (map Benefits.Amount_of_Claims_VAT out) = true).
Proof.
  cbv zeta. destruct (normalize_rows meta grid) as (_ & Hn & Ha & Hv & _).
  rewrite !map_map. rewrite Hn, Ha, Hv.
  repeat split; apply convert_column_kind.
Qed.

Lemma benefit_rows_enriched meta grid :
  Forall (fun ib =>
            Benefits.Policy_Year (snd ib) = T "Last Policy Year"
            /\ Benefits.End_Date (snd ib) = end_date meta
            /\ Benefits.Class (snd ib) = class meta
            /\ Benefits.Overall_Limit (snd ib) = overall_limit meta)
         (rows (normalize meta grid)).
Proof.
  apply Forall_forall. intros [i b] Hin.
  destruct (normalize_rows meta grid) as (_ & _ & _ & _ & Hrow).
  destruct (Hrow i b Hin) as (r & n & a & v & _ & ->). simpl.
  repeat split.
Qed.

(** X17.  The output never has more rows than the grid, and every output row
    is labelled ["Last Policy Year"], whatever the grid says, and carries
    the end date, the class and the overall limit of the metadata. *)
Theorem benefit_rows_stamped (meta : Meta) (grid : list RawRow) :
  List.length (rows (normalize meta grid)) <= List.length grid
  /\ Forall (fun ib =>
               Benefits.Policy_Year (snd ib) = T "Last Policy Year"
               /\ Benefits.End_Date (snd ib) = end_date meta
               /\ Benefits.Class (snd ib) = class meta
               /\ Benefits.Overall_Limit (snd ib) = overall_limit meta)
            (rows (normalize meta grid)).
Proof.
  split; [|apply benefit_rows_enriched].
  destruct (normalize_rows meta grid) as (Hidx & _).
  apply (f_equal (@List.length nat)) in Hidx. rewrite !length_map in Hidx.
  rewrite Hidx. unfold filter_rows.
  etransitivity; [apply filter_length_le|].
  unfold enumerate. rewrite length_combine, length_seq. lia.
Qed.

(** ** [validate_dataframes] and [process_pdf], further *)

Lemma has_column_ext cols cols' col :
  (forall c, In c cols <-> In c cols') ->
  has_column cols col = has_column cols' col.
Proof.
  intros H. destruct (has_column cols' col) eqn:E.
  - apply has_column_in. apply H. now apply has_column_in.
  - destruct (has_column cols col) eqn:E'; [|reflexivity].
    apply has_column_in, H, has_column_in in E'. congruence.
Qed.

Lemma missing_diagnostics_ext prefix cols cols' req :
  (forall c, In c cols <-> In c cols') ->
  missing_diagnostics prefix cols req = missing_diagnostics prefix cols' req.
Proof.
  intros H. unfold missing_diagnostics. f_equal.
  apply filter_ext. intros col. now rewrite (@has_column_ext cols cols' col H).
Qed.




(** ** Header lines and letter case *)

Lemma all_chars_in x : In x all_chars.
Proof.
  assert (H : existsb (Ascii.eqb x) all_chars = true)
    by (destruct x as [[] [] [] [] [] [] [] []]; vm_compute; reflexivity).
  apply existsb_exists in H as (y & Hy & E). apply Ascii.eqb_eq in E. now subst.
Qed.

Lemma caseblind_atom re cs q x :
  caseblind re = true -> In (Atom cs q) re ->
  cset_match true cs (lower_char x) = cset_match true cs x.
Proof.
  unfold caseblind. rewrite forallb_forall. intros H Hin.
  specialize (H _ Hin). cbv beta iota in H. rewrite forallb_forall in H.
  apply Bool.eqb_prop. apply H. apply all_chars_in.
Qed.

Lemma caseblind_tail n re : caseblind (n :: re) = true -> caseblind re = true.
Proof. unfold caseblind. simpl. intros H. now apply andb_true_iff in H as [_ H]. Qed.

Lemma space_lower c : isspace (lower_char c) = isspace c.
Proof. destruct c as [[] [] [] [] [] [] [] []]; vm_compute; reflexivity. Qed.

Section LowerCase.
Variable p : ascii -> bool.
Variable k : nat -> str -> option outcome.
Hypothesis p_blind : forall x, p (lower_char x) = p x.
Hypothesis k_blind : forall pos s, k pos (lower s) = k pos s.

Lemma one_lower pos s : one p k pos (lower s) = one p k pos s.
Proof.
  destruct s as [|x s]; simpl; [reflexivity|].
  rewrite p_blind. destruct (p x); [apply k_blind|reflexivity].
Qed.

Lemma greedy_lower s : forall pos, greedy p k pos (lower s) = greedy p k pos s.
Proof.
  induction s as [|x s IH]; intros pos; simpl; [apply (k_blind pos [])|].
  rewrite p_blind, IH. destruct (p x); [|apply (k_blind pos (x :: s))].
  destruct (greedy p k (S pos) s); [reflexivity|apply (k_blind pos (x :: s))].
Qed.

Lemma optional_lower pos s : optional p k pos (lower s) = optional p k pos s.
Proof.
  destruct s as [|x s]; simpl; [apply (k_blind pos [])|].
  rewrite p_blind. destruct (p x); [|apply (k_blind pos (x :: s))].
  fold (lower s). rewrite k_blind.
  destruct (k (S pos) s); [reflexivity|apply (k_blind pos (x :: s))].
Qed.

Lemma times_lower n : forall pos s, times p k n pos (lower s) = times p k n pos s.
Proof.
  induction n as [|n IH]; intros pos s; simpl; [apply k_blind|].
  destruct s as [|x s]; simpl; [reflexivity|].
  rewrite p_blind. destruct (p x); [apply IH|reflexivity].
Qed.
End LowerCase.

(** A pattern whose sets do not tell the cases apart matches a text as it
    matches its lower-case form. *)
Lemma run_lower re : forall g pos s,
  caseblind re = true ->
  run true re g pos (lower s) = run true re g pos s.
Proof.
  induction re as [|n re IH]; intros g pos s Hb; [reflexivity|].
  pose proof (caseblind_tail _ _ Hb) as Hb'.
  destruct n as [cs q| | |]; cbn [run].
  - assert (Hp : forall x, cset_match true cs (lower_char x) = cset_match true cs x).
    { intros x. apply (@caseblind_atom _ cs q x Hb). now left. }
    assert (Hk : forall pos' s', run true re g pos' (lower s') = run true re g pos' s').
    { intros pos' s'. now apply IH. }
    destruct q.
    + now apply one_lower.
    + now apply greedy_lower.
    + apply one_lower; [assumption|]. intros pos' s'. now apply greedy_lower.
    + now apply optional_lower.
    + now apply times_lower.
  - destruct (pos =? 0); [now apply IH|reflexivity].
  - now apply IH.
  - now apply IH.
Qed.

Lemma search_from_lower re s : forall pos,
  caseblind re = true ->
  is_some (search_from true re pos (lower s)) = is_some (search_from true re pos s).
Proof.
  induction s as [|x s IH]; intros pos Hb.
  - reflexivity.
  - cbn [search_from lower map]. unfold attempt.
    change (lower_char x :: map lower_char s) with (lower (x :: s)).
    rewrite (run_lower re (None, None) pos (x :: s) Hb).
    destruct (run true re (None, None) pos (x :: s)) as [[e g]|]; [reflexivity|].
    now apply IH.
Qed.

Lemma header_label_lower line : header_label (lower line) = header_label line.
Proof.
  unfold header_label, re_search.
  rewrite !search_from_lower by (vm_compute; reflexivity). reflexivity.
Qed.

Lemma lstrip_lower s : lstrip (lower s) = lower (lstrip s).
Proof.
  induction s as [|c s IH]; [reflexivity|]. cbn [lower map lstrip].
  rewrite space_lower. destruct (isspace c); [exact IH|reflexivity].
Qed.

Lemma rstrip_lower s : rstrip (lower s) = lower (rstrip s).
Proof.
  unfold rstrip.
  replace (rev (lower s)) with (lower (rev s)) by apply map_rev.
  rewrite lstrip_lower. apply eq_sym, map_rev.
Qed.

Lemma strip_lower s : strip (lower s) = lower (strip s).
Proof. unfold strip. now rewrite lstrip_lower, rstrip_lower. Qed.

Lemma header_of_lower raw :
  header_label (strip (lower raw)) = header_label (strip raw).
Proof. now rewrite strip_lower, header_label_lower. Qed.



Lemma last_header_from_set lines : forall l,
  exists l', last_header_from (Some l) lines = Some l'.
Proof.
  induction lines as [|raw lines IH]; intros l; simpl; [now exists l|].
  destruct (header_label (strip raw)) as [l1|]; apply IH.
Qed.

Lemma last_header_app pre post :
  last_header (pre ++ post) = last_header_from (last_header pre) post.
Proof.
  unfold last_header. generalize (@None str) as acc.
  induction pre as [|raw pre IH]; intros acc; [reflexivity|]. simpl. apply IH.
Qed.

(** X13.  A section never closes.  Once a header line has been read, every
    later line is read under some section, to the end of the input; and
    under a section any line that begins with six digits is taken as a data
    line. *)
Theorem section_never_closes (meta : Meta) (pre post : list str) (l : str) :
  last_header pre = Some l ->
  (exists l', last_header (pre ++ post) = Some l')
  /\ forall raw,
       six_leading_digits (strip raw) = true ->
       exists sec,
         emit meta (last_header pre) raw
         = (Some sec, parse_data_line meta sec (strip raw)).
Proof.
  intros H. split.
  - rewrite last_header_app, H. apply last_header_from_set.
  - intros raw H6. rewrite H.
    assert (Hok : section_ok (header_transition (Some l) (strip raw))).
    { apply header_transition_ok. pose proof H as H'.
      apply last_header_from_some in H' as [[Hn _] | (p & r & q & _ & Hl & _)];
        [discriminate|].
      right. exists l. split; [now apply header_label_in with (strip r)|reflexivity]. }
    assert (Hsome : header_transition (Some l) (strip raw) <> None).
    { unfold header_transition. destruct (header_label (strip raw)); discriminate. }
    rewrite (surjective_pairing (emit meta (Some l) raw)), emit_fst, emit_snd.
    assert (Hd : data_line (header_transition (Some l) (strip raw)) (strip raw) = true).
    { apply (data_line_spec (strip raw) Hok). now split. }
    rewrite Hd.
    destruct (header_transition (Some l) (strip raw)) as [sec|]; [|congruence].
    now exists sec.
Qed.

Lemma section_never_closes_witness :
  (exists l', last_header ([T "Last Policy Year"] ++ [T "Benefits"; T "Total"]) = Some l')
  /\ forall raw,
       six_leading_digits (strip raw) = true ->
       exists sec,
         emit default_meta (last_header [T "Last Policy Year"]) raw
         = (Some sec, parse_data_line default_meta sec (strip raw)).
Proof.
  apply (@section_never_closes default_meta [T "Last Policy Year"]
           [T "Benefits"; T "Total"] (T "Last Policy Year")).
  vm_compute. reflexivity.
Defined.
